(** * A media relay: URL classifier, format selector, filename sanitizer
      and the request lifecycle of the download endpoint.

    Shallow embedding of [downloader.ts] (the pipeline) and
    [backend/index.ts] (the router).  JavaScript strings are sequences of
    UTF-16 code units; a code unit is a number of type [N]. *)

From Stdlib Require Import NArith List Bool String Ascii Lia.
Import ListNotations.
Local Open Scope N_scope.

(* ================================================================= *)
(** * Part I: definitions *)
(* ================================================================= *)

(** ** JavaScript strings *)

Module JS.

(** A string value: the list of its UTF-16 code units. *)
Definition jsstring := list N.

(** A string literal of the source (ASCII only). *)
Fixpoint str (s : string) : jsstring :=
  match s with
  | EmptyString => []
  | String a t => N_of_ascii a :: str t
  end.

(** Strict equality [===] of two strings: same code units. *)
Fixpoint eqb (a b : jsstring) : bool :=
  match a, b with
  | [], [] => true
  | x :: a', y :: b' => N.eqb x y && eqb a' b'
  | _, _ => false
  end.

(** [s.startsWith(p)]. *)
Fixpoint startsWith (s p : jsstring) {struct p} : bool :=
  match p, s with
  | [], _ => true
  | x :: p', y :: s' => N.eqb x y && startsWith s' p'
  | _ :: _, [] => false
  end.

(** [s.includes(p)]: [p] occurs at some index of [s]. *)
Fixpoint includes (s p : jsstring) : bool :=
  startsWith s p ||
  match s with
  | [] => false
  | _ :: s' => includes s' p
  end.

(** Truthiness of a string: only the empty string is falsy. *)
Definition truthy (s : jsstring) : bool :=
  match s with [] => false | _ :: _ => true end.

(** [a || b] on strings. *)
Definition or_else (a b : jsstring) : jsstring :=
  if truthy a then a else b.

(** The class [\s] of a regular expression, which is also the set that
    [String.prototype.trim] strips: WhiteSpace and LineTerminator. *)
Definition is_space (c : N) : bool :=
  existsb (N.eqb c)
    [9; 10; 11; 12; 13; 32; 160; 5760; 8232; 8233; 8239; 8287; 12288; 65279]
  || ((8192 <=? c) && (c <=? 8202)).

(** The class [\d]. *)
Definition is_digit (c : N) : bool := (48 <=? c) && (c <=? 57).

(** The class [\w]: letters, digits and the underscore. *)
Definition is_word (c : N) : bool :=
  ((97 <=? c) && (c <=? 122)) || ((65 <=? c) && (c <=? 90))
  || is_digit c || (c =? 95).

(** The class [.] without the [s] flag: anything but a line terminator. *)
Definition is_dot (c : N) : bool :=
  negb (existsb (N.eqb c) [10; 13; 8232; 8233]).

Fixpoint dropWhile (p : N -> bool) (s : jsstring) : jsstring :=
  match s with
  | [] => []
  | c :: t => if p c then dropWhile p t else s
  end.

(** [s.trim()]. *)
Definition trim (s : jsstring) : jsstring :=
  rev (dropWhile is_space (rev (dropWhile is_space s))).

(** [s.replace(/[cls]/g, f)] for a one-character class [cls] and a
    replacement callback [f] (a constant callback for a string
    replacement): every matching code unit is replaced. *)
Definition replace_class_g (cls : N -> bool) (f : N -> jsstring)
    (s : jsstring) : jsstring :=
  flat_map (fun c => if cls c then f c else [c]) s.

(** [s.replace(/[cls]+/g, rep)]: each maximal run of matching code units
    is replaced by one copy of [rep].  [in_run] tells that the previous
    code unit belonged to the run being replaced. *)
Fixpoint replace_runs_from (cls : N -> bool) (rep : jsstring)
    (in_run : bool) (s : jsstring) : jsstring :=
  match s with
  | [] => []
  | c :: t =>
      if cls c then
        if in_run then replace_runs_from cls rep true t
        else rep ++ replace_runs_from cls rep true t
      else c :: replace_runs_from cls rep false t
  end.

Definition replace_runs_g (cls : N -> bool) (rep : jsstring)
    (s : jsstring) : jsstring :=
  replace_runs_from cls rep false s.

(** [s.substring(0, n)]. *)
Definition substring0 (n : nat) (s : jsstring) : jsstring := firstn n s.

End JS.

Import JS.

(** ** Regular expressions

    The patterns of the platform list use literals, classes, grouping,
    alternation, [?] and [+]; none has a flag, a back-reference or a
    look-around, and each starts with the anchor [^] and has no [$].  For
    such a pattern [RegExp.prototype.test] is stateless and answers whether
    some prefix of the input belongs to the language of the pattern's
    body. *)

Module RegExp.

Inductive regex : Type :=
| Void                        (* no string at all: arises in derivatives *)
| Eps                         (* the empty string *)
| Cls (p : N -> bool)         (* one code unit of a class *)
| Cat (r1 r2 : regex)
| Alt (r1 r2 : regex)
| Star (r : regex).

Declare Scope regex_scope.
Delimit Scope regex_scope with re.
Bind Scope regex_scope with regex.
Notation "r1 ;; r2" := (Cat r1 r2)
  (at level 61, right associativity) : regex_scope.

(** A literal character. *)
Definition chr (a : ascii) : regex := Cls (N.eqb (N_of_ascii a)).

(** A literal run of characters. *)
Fixpoint lit (s : string) : regex :=
  match s with
  | EmptyString => Eps
  | String a t => Cat (chr a) (lit t)
  end.

(** [r?] and [r+]. *)
Definition opt (r : regex) : regex := Alt r Eps.
Definition plus (r : regex) : regex := Cat r (Star r).

(** The language of a pattern body. *)
Inductive matches : regex -> jsstring -> Prop :=
| m_eps : matches Eps []
| m_cls p c : p c = true -> matches (Cls p) [c]
| m_cat r1 r2 s1 s2 :
    matches r1 s1 -> matches r2 s2 -> matches (Cat r1 r2) (s1 ++ s2)
| m_alt_l r1 r2 s : matches r1 s -> matches (Alt r1 r2) s
| m_alt_r r1 r2 s : matches r2 s -> matches (Alt r1 r2) s
| m_star_nil r : matches (Star r) []
| m_star_cons r s1 s2 :
    matches r s1 -> matches (Star r) s2 -> matches (Star r) (s1 ++ s2).

(** Does the body accept the empty string? *)
Fixpoint nullable (r : regex) : bool :=
  match r with
  | Void => false
  | Eps => true
  | Cls _ => false
  | Cat r1 r2 => nullable r1 && nullable r2
  | Alt r1 r2 => nullable r1 || nullable r2
  | Star _ => true
  end.

(** What remains to be matched after reading the code unit [c]. *)
Fixpoint deriv (c : N) (r : regex) : regex :=
  match r with
  | Void => Void
  | Eps => Void
  | Cls p => if p c then Eps else Void
  | Cat r1 r2 =>
      if nullable r1 then Alt (Cat (deriv c r1) r2) (deriv c r2)
      else Cat (deriv c r1) r2
  | Alt r1 r2 => Alt (deriv c r1) (deriv c r2)
  | Star r1 => Cat (deriv c r1) (Star r1)
  end.

(** [/^body/.test(s)]: a match that starts at index 0 and ends anywhere. *)
Fixpoint test (body : regex) (s : jsstring) : bool :=
  nullable body ||
  match s with
  | [] => false
  | c :: t => test (deriv c body) t
  end.

End RegExp.

Import RegExp.

(** ** The platform list and the URL classifier *)

Record PlatformConfig := {
  name : jsstring;
  pattern : regex;      (* the body of the anchored pattern *)
  icon : jsstring
}.

(** The classes [[\w-]] and [[\w.]]. *)
Definition is_word_or_dash (c : N) : bool := is_word c || (c =? 45).
Definition is_word_or_period (c : N) : bool := is_word c || (c =? 46).

Definition SUPPORTED_PLATFORMS : list PlatformConfig :=
  [ {| name := str "Twitter/X";
       pattern :=
         (lit "http" ;; opt (chr "s") ;; lit "://" ;; opt (lit "www.") ;;
          Alt (lit "x.com") (lit "twitter.com") ;; lit "/" ;;
          plus (Cls is_dot) ;; lit "/status/" ;; plus (Cls is_digit))%re;
       icon := [55357; 56358] |};
    {| name := str "Instagram";
       pattern :=
         (lit "http" ;; opt (chr "s") ;; lit "://" ;; opt (lit "www.") ;;
          lit "instagram.com/" ;;
          Alt (lit "p") (Alt (lit "reel") (lit "tv")) ;; lit "/" ;;
          plus (Cls is_word_or_dash))%re;
       icon := [55357; 56567] |};
    {| name := str "YouTube";
       pattern :=
         (lit "http" ;; opt (chr "s") ;; lit "://" ;; opt (lit "www.") ;;
          Alt (lit "youtube.com/watch?v=") (lit "youtu.be/") ;;
          plus (Cls is_word_or_dash))%re;
       icon := [9654; 65039] |};
    {| name := str "Reddit";
       pattern :=
         (lit "http" ;; opt (chr "s") ;; lit "://" ;; opt (lit "www.") ;;
          lit "reddit.com/r/" ;; plus (Cls is_word) ;;
          lit "/comments/" ;; plus (Cls is_word))%re;
       icon := [55358; 56598] |};
    {| name := str "TikTok";
       pattern :=
         (lit "http" ;; opt (chr "s") ;; lit "://" ;; opt (lit "www.") ;;
          Alt (lit "tiktok.com/@" ;; plus (Cls is_word_or_period) ;;
               lit "/video/" ;; plus (Cls is_digit))
              (lit "vm.tiktok.com/" ;; plus (Cls is_word)))%re;
       icon := [55356; 57269] |};
    {| name := str "Facebook";
       pattern :=
         (lit "http" ;; opt (chr "s") ;; lit "://" ;; opt (lit "www.") ;;
          Alt (lit "facebook.com") (lit "fb.watch") ;; lit "/" ;;
          Alt (lit "watch" ;; opt (chr "/") ;; lit "?v=" ;;
               plus (Cls is_digit))
              (plus (Cls is_word_or_period) ;; lit "/videos/" ;;
               plus (Cls is_digit)))%re;
       icon := [55357; 56420] |};
    {| name := str "Vimeo";
       pattern :=
         (lit "http" ;; opt (chr "s") ;; lit "://" ;; opt (lit "www.") ;;
          lit "vimeo.com/" ;; plus (Cls is_digit))%re;
       icon := [55356; 57260] |};
    {| name := str "Twitch Clips";
       pattern :=
         (lit "http" ;; opt (chr "s") ;; lit "://" ;; opt (lit "www.") ;;
          Alt (lit "clips.twitch.tv/" ;; plus (Cls is_word))
              (lit "twitch.tv/" ;; plus (Cls is_word) ;; lit "/clip/" ;;
               plus (Cls is_word)))%re;
       icon := [55356; 57262] |};
    {| name := str "Pinterest";
       pattern :=
         (lit "http" ;; opt (chr "s") ;; lit "://" ;; opt (lit "www.") ;;
          lit "pinterest." ;;
          Alt (lit "com") (Alt (lit "ca") (lit "co.uk")) ;;
          lit "/pin/" ;; plus (Cls is_digit))%re;
       icon := [55357; 56524] |};
    {| name := str "Dailymotion";
       pattern :=
         (lit "http" ;; opt (chr "s") ;; lit "://" ;; opt (lit "www.") ;;
          lit "dailymotion.com/video/" ;; plus (Cls is_word))%re;
       icon := [55356; 57253] |} ].

(** The object returned by the classifier; [platform] and [icon] are
    absent from a negative answer. *)
Record Validation := {
  valid : bool;
  platform : option jsstring;
  v_icon : option jsstring
}.

(** The loop of [isValidUrl] over the remaining platforms. *)
Fixpoint isValidUrl_from (ps : list PlatformConfig) (url : jsstring)
    : Validation :=
  match ps with
  | [] => {| valid := false; platform := None; v_icon := None |}
  | p :: rest =>
      if test (pattern p) url then
        {| valid := true; platform := Some (name p); v_icon := Some (icon p) |}
      else isValidUrl_from rest url
  end.

Definition isValidUrl (url : jsstring) : Validation :=
  isValidUrl_from SUPPORTED_PLATFORMS url.

(** ** The filename sanitizer *)

(** The character class of the first [replace], by code unit: slash (47),
    backslash (92), colon (58), star (42), question mark (63), double
    quote (34), less-than (60), greater-than (62), bar (124). *)
Definition is_illegal (c : N) : bool :=
  existsb (N.eqb c) [47; 92; 58; 42; 63; 34; 60; 62; 124].

(** The class [[^\x00-\x7F]]. *)
Definition non_ascii (c : N) : bool := negb (c <=? 127).

(** The callback of the third [replace]:
    [(char) => char.charCodeAt(0) < 128 ? char : "_"]. *)
Definition ascii_or_underscore (c : N) : jsstring :=
  if c <? 128 then [c] else str "_".

Definition sanitizeFilename (name : jsstring) : jsstring :=
  substring0 100
    (replace_class_g non_ascii ascii_or_underscore
       (replace_runs_g is_space (str "_")
          (replace_class_g is_illegal (fun _ => str "") name))).

(** ** The format selector *)

(** [platform?.includes(needle)]: false when the platform is absent. *)
Definition includes_opt (platform : option jsstring) (needle : jsstring)
    : bool :=
  match platform with
  | Some p => includes p needle
  | None => false
  end.

Definition getYtDlpFormat (quality : jsstring) (platform : option jsstring)
    : jsstring :=
  if includes_opt platform (str "YouTube") then
    if eqb quality (str "audio") then
      str "bestaudio[ext=m4a]/bestaudio"
    else if eqb quality (str "720") then
      str "bestvideo[height<=720][ext=mp4]+bestaudio[ext=m4a]/best[height<=720]"
    else if eqb quality (str "1080") then
      str "bestvideo[height<=1080][ext=mp4]+bestaudio[ext=m4a]/best[height<=1080]"
    else if eqb quality (str "4k") || eqb quality (str "2160") then
      str "bestvideo[height<=2160][ext=mp4]+bestaudio[ext=m4a]/best[height<=2160]"
    else (* case "best": default: *)
      str "bestvideo[ext=mp4]+bestaudio[ext=m4a]/best[ext=mp4]/best"
  else
    if eqb quality (str "audio") then str "bestaudio/best"
    else if eqb quality (str "720") then
      str "bv*[height<=720]+ba/b[height<=720]/b"
    else if eqb quality (str "1080") then
      str "bv*[height<=1080]+ba/b[height<=1080]/b"
    else if eqb quality (str "4k") || eqb quality (str "2160") then
      str "bv*[height<=2160]+ba/b[height<=2160]/b"
    else (* case "best": default: *)
      str "bv*+ba/b".

Definition getFileExtension (quality : jsstring) : jsstring :=
  if eqb quality (str "audio") then str "m4a" else str "mp4".

(** ** [encodeURIComponent]

    Unreserved characters stay; any other code point is written as the
    percent-escaped bytes of its UTF-8 form.  A surrogate that is not part
    of a pair makes the call throw [URIError]: [None]. *)

Definition uri_unreserved (c : N) : bool :=
  is_word c || existsb (N.eqb c) [45; 46; 33; 126; 42; 39; 40; 41].

Definition hex_digit (n : N) : N := if n <? 10 then 48 + n else 55 + n.

Definition percent (b : N) : jsstring :=
  [37; hex_digit (b / 16); hex_digit (b mod 16)].

Definition utf8 (cp : N) : list N :=
  if cp <? 128 then [cp]
  else if cp <? 2048 then [192 + cp / 64; 128 + cp mod 64]
  else if cp <? 65536 then
    [224 + cp / 4096; 128 + (cp / 64) mod 64; 128 + cp mod 64]
  else
    [240 + cp / 262144; 128 + (cp / 4096) mod 64; 128 + (cp / 64) mod 64;
     128 + cp mod 64].

Definition is_lead (c : N) : bool := (55296 <=? c) && (c <=? 56319).
Definition is_trail (c : N) : bool := (56320 <=? c) && (c <=? 57343).

Fixpoint encodeURIComponent (s : jsstring) : option jsstring :=
  match s with
  | [] => Some []
  | c :: t =>
      if uri_unreserved c then option_map (cons c) (encodeURIComponent t)
      else if is_trail c then None
      else if is_lead c then
        match t with
        | c2 :: t' =>
            if is_trail c2 then
              option_map
                (app (flat_map percent
                        (utf8 (65536 + (c - 55296) * 1024 + (c2 - 56320)))))
                (encodeURIComponent t')
            else None
        | [] => None
        end
      else option_map (app (flat_map percent (utf8 c))) (encodeURIComponent t)
  end.

(** ** Requests and responses *)

(** The values handed to [JSON.stringify]. *)
#[local] Set Warnings "-register-all".
Inductive JSON : Type :=
| JString (s : jsstring)
| JNumber (n : N)
| JArray (items : list JSON)
| JObject (fields : list (jsstring * JSON)).

(** The value of property [key] of an object, if it has one. *)
Fixpoint field_from (key : jsstring) (fields : list (jsstring * JSON))
    : option JSON :=
  match fields with
  | [] => None
  | (k, v) :: rest => if eqb k key then Some v else field_from key rest
  end.

Definition field (key : jsstring) (v : JSON) : option JSON :=
  match v with
  | JObject fields => field_from key fields
  | _ => None
  end.

(** The body of a response.  A JSON body is kept as the value that was
    serialised; a streamed body as the command line of the child whose
    standard output it is. *)
Inductive Body : Type :=
| JsonText (v : JSON)                 (* JSON.stringify(v) *)
| PlainText (s : jsstring)
| FileBody (path : jsstring)          (* Bun.file(path) *)
| StdoutOf (cmd : list jsstring).     (* child.stdout *)

Record Response := {
  status : N;
  headers : list (jsstring * jsstring);
  body : Body
}.

(** The part of a [Request] the program reads: the path and the query of
    its URL.  The abort signal lives in the lifecycle state below. *)
Record Request := {
  pathname : jsstring;
  searchParams : list (jsstring * jsstring)
}.

(** [searchParams.get(key)]: the first value of [key], or [null]. *)
Fixpoint searchParams_get (params : list (jsstring * jsstring))
    (key : jsstring) : option jsstring :=
  match params with
  | [] => None
  | (k, v) :: rest => if eqb k key then Some v else searchParams_get rest key
  end.

(** [v || d] for a value that may be [null]. *)
Definition or_default (v : option jsstring) (d : jsstring) : jsstring :=
  match v with
  | Some s => or_else s d
  | None => d
  end.

Definition json_headers : list (jsstring * jsstring) :=
  [(str "Content-Type", str "application/json")].

Definition getSupportedPlatforms : list JSON :=
  map (fun p => JObject [(str "name", JString (name p));
                         (str "icon", JString (icon p))])
    SUPPORTED_PLATFORMS.

(** ** The request lifecycle

    [streamVideo] is an asynchronous function.  Between two suspension
    points its code runs to completion, so a request is a state machine:
    the synchronous stretches are the transitions, and the events are what
    the event loop delivers (the probe's output, the timer, the abort
    signal, the relay's reads).  Console output and the two tasks that
    drain the standard error streams change nothing below and are left out. *)

(** A child process started by [Bun.spawn]. *)
Record Child := {
  cmd : list jsstring;
  killed : bool;          (* [kill()] was called on it *)
  stdin_ended : bool      (* [stdin.end()] was called on it *)
}.

Definition spawn (command : list jsstring) : Child :=
  {| cmd := command; killed := false; stdin_ended := false |}.

Definition kill (c : Child) : Child :=
  {| cmd := cmd c; killed := true; stdin_ended := stdin_ended c |}.

Definition end_stdin (c : Child) : Child :=
  {| cmd := cmd c; killed := killed c; stdin_ended := true |}.

(** What a [catch] clause receives. *)
Inductive Thrown : Type :=
| ErrorObject (message : jsstring)    (* an instance of [Error] *)
| OtherValue.

(** [Bun.spawn] starts the child or throws (a missing executable). *)
Inductive SpawnOutcome : Type :=
| Started
| Throws (e : Thrown).

Inductive Phase : Type :=
| AwaitingTitle (url quality : jsstring) (validation : Validation)
| Settled (r : Response).             (* the returned promise is settled *)

Record Lifecycle := {
  phase : Phase;
  titleProc : option Child;
  titleTimeout : bool;      (* the 10 second timer is pending *)
  ytdlp : option Child;
  ffmpeg : option Child;
  relaying : bool;          (* the relay task has not finished *)
  abortListener : bool;     (* the handler is registered on [req.signal] *)
  aborted : bool            (* [req.signal] has fired *)
}.

(** A request that is answered at once, nothing started. *)
Definition respond (r : Response) : Lifecycle :=
  {| phase := Settled r; titleProc := None; titleTimeout := false;
     ytdlp := None; ffmpeg := None; relaying := false;
     abortListener := false; aborted := false |}.

Definition error500 (e : Thrown) : Response :=
  {| status := 500;
     headers := json_headers;
     body :=
       JsonText
         (JObject
            [(str "error", JString (str "Failed to download video"));
             (str "message",
              JString match e with
                      | ErrorObject m => m
                      | OtherValue => str "Unknown error"
                      end)]) |}.

Definition ffmpegCmd (isAudioOnly : bool) : list jsstring :=
  if isAudioOnly then
    map str ["ffmpeg"; "-loglevel"; "error"; "-i"; "pipe:0"; "-c:a"; "aac";
             "-b:a"; "192k"; "-f"; "ipod"; "pipe:1"]%string
  else
    map str ["ffmpeg"; "-loglevel"; "error"; "-i"; "pipe:0"; "-c:v"; "copy";
             "-c:a"; "aac"; "-movflags"; "frag_keyframe+empty_moov"; "-f";
             "mp4"; "pipe:1"]%string.

(** The title kept from the probe: its trimmed output, or the default
    when that is empty or when reading it failed ([raw = None]). *)
Definition probedTitle (raw : option jsstring) : jsstring :=
  match raw with
  | Some rawTitle => or_else (trim rawTitle) (str "video")
  | None => str "video"
  end.

(** The first synchronous stretch of [streamVideo]: validation, then the
    spawn of the title probe and of its timer.  [probe] is the outcome of
    that spawn. *)
Definition streamVideo (req : Request) (probe : SpawnOutcome) : Lifecycle :=
  let url := searchParams_get (searchParams req) (str "url") in
  let quality :=
    or_default (searchParams_get (searchParams req) (str "quality"))
      (str "best") in
  match url with
  | None | Some [] =>
      respond
        {| status := 400;
           headers := json_headers;
           body :=
             JsonText
               (JObject [(str "error", JString (str "Missing url parameter"))])
        |}
  | Some url =>
      let validation := isValidUrl url in
      if negb (valid validation) then
        respond
          {| status := 400;
             headers := json_headers;
             body :=
               JsonText
                 (JObject
                    [(str "error", JString (str "Unsupported URL"));
                     (str "message",
                      JString
                        (str "Please provide a valid URL from supported platforms"));
                     (str "supported",
                      JArray (map (fun p => JString (name p))
                                SUPPORTED_PLATFORMS))]) |}
      else
        match probe with
        | Throws e => respond (error500 e)
        | Started =>
            {| phase := AwaitingTitle url quality validation;
               titleProc :=
                 Some (spawn [str "yt-dlp"; str "--print"; str "title"; url]);
               titleTimeout := true;
               ytdlp := None; ffmpeg := None; relaying := false;
               abortListener := false; aborted := false |}
        end
  end.

(** The second synchronous stretch, entered when the awaits on the probe
    settle with [raw]: both children are spawned ([yt], [ff] are the
    outcomes), the relay task is started, the abort handler is registered
    and the response is returned. *)
Definition resume (st : Lifecycle) (url quality : jsstring)
    (validation : Validation) (raw : option jsstring)
    (yt ff : SpawnOutcome) : Lifecycle :=
  let title := probedTitle raw in
  let safeTitle := sanitizeFilename title in
  let ext := getFileExtension quality in
  let filename := safeTitle ++ str "." ++ ext in
  let format := getYtDlpFormat quality (platform validation) in
  let fail (e : Thrown) (y f : option Child) (r l : bool) :=
    {| phase := Settled (error500 e);
       titleProc := titleProc st; titleTimeout := false;
       ytdlp := y; ffmpeg := f; relaying := r;
       abortListener := l; aborted := aborted st |} in
  match yt with
  | Throws e => fail e None None false false
  | Started =>
      let y := spawn [str "yt-dlp"; str "-f"; format; str "-o"; str "-"; url] in
      let isAudioOnly := eqb quality (str "audio") in
      match ff with
      | Throws e => fail e (Some y) None false false
      | Started =>
          let f := spawn (ffmpegCmd isAudioOnly) in
          match encodeURIComponent filename with
          | None =>
              fail (ErrorObject (str "URI malformed")) (Some y) (Some f)
                true true
          | Some encodedFilename =>
              let contentType :=
                if isAudioOnly then str "audio/mp4" else str "video/mp4" in
              {| phase :=
                   Settled
                     {| status := 200;
                        headers :=
                          [(str "Content-Type", contentType);
                           (str "Content-Disposition",
                            str "attachment; filename=" ++ [34]
                            ++ (if isAudioOnly then str "audio"
                                else str "video")
                            ++ str "." ++ ext ++ [34]
                            ++ str "; filename*=UTF-8''" ++ encodedFilename);
                           (str "Cache-Control", str "no-store");
                           (str "X-Content-Type-Options", str "nosniff")];
                        body := StdoutOf (cmd f) |};
                 titleProc := titleProc st; titleTimeout := false;
                 ytdlp := Some y; ffmpeg := Some f; relaying := true;
                 abortListener := true; aborted := aborted st |}
          end
      end
  end.

(** What the event loop can deliver to a request. *)
Inductive Event : Type :=
| Abort                 (* the client disconnects: [req.signal] fires *)
| TitleTimeout          (* the 10 second timer fires *)
| TitleSettled (raw : option jsstring) (yt ff : SpawnOutcome)
| RelayChunk            (* a chunk is read and written to the transcoder *)
| RelayDone             (* the downloader's output is exhausted *)
| RelayFailed.          (* a read or a write throws *)

(** One transition; [None] when the event cannot occur in that state.  A
    signal fires once, and its handlers run only if they are registered
    by then. *)
Definition step (st : Lifecycle) (ev : Event) : option Lifecycle :=
  match ev with
  | Abort =>
      if aborted st then None
      else
        Some
          {| phase := phase st;
             titleProc := titleProc st; titleTimeout := titleTimeout st;
             ytdlp :=
               if abortListener st then option_map kill (ytdlp st)
               else ytdlp st;
             ffmpeg :=
               if abortListener st then option_map kill (ffmpeg st)
               else ffmpeg st;
             relaying := relaying st;
             abortListener := abortListener st; aborted := true |}
  | TitleTimeout =>
      if titleTimeout st then
        Some
          {| phase := phase st;
             titleProc := option_map kill (titleProc st);
             titleTimeout := false;
             ytdlp := ytdlp st; ffmpeg := ffmpeg st; relaying := relaying st;
             abortListener := abortListener st; aborted := aborted st |}
      else None
  | TitleSettled raw yt ff =>
      match phase st with
      | AwaitingTitle url quality validation =>
          Some (resume st url quality validation raw yt ff)
      | Settled _ => None
      end
  | RelayChunk => if relaying st then Some st else None
  | RelayDone =>
      if relaying st then
        Some
          {| phase := phase st;
             titleProc := titleProc st; titleTimeout := titleTimeout st;
             ytdlp := ytdlp st;
             ffmpeg := option_map end_stdin (ffmpeg st);
             relaying := false;
             abortListener := abortListener st; aborted := aborted st |}
      else None
  | RelayFailed =>
      if relaying st then
        Some
          {| phase := phase st;
             titleProc := titleProc st; titleTimeout := titleTimeout st;
             ytdlp := option_map kill (ytdlp st);
             ffmpeg := option_map kill (ffmpeg st);
             relaying := false;
             abortListener := abortListener st; aborted := aborted st |}
      else None
  end.

(** A run of events, in the order of their delivery. *)
Fixpoint run (st : Lifecycle) (evs : list Event) : option Lifecycle :=
  match evs with
  | [] => Some st
  | ev :: rest =>
      match step st ev with
      | Some st' => run st' rest
      | None => None
      end
  end.

(** Is this child started and not yet told to die? *)
Definition running_unkilled (c : option Child) : bool :=
  match c with
  | Some p => negb (killed p)
  | None => false
  end.

Definition is_killed (c : option Child) : bool :=
  match c with
  | Some p => killed p
  | None => false
  end.

(** ** The router *)

Definition fetch (req : Request) (now : N) (probe : SpawnOutcome)
    : Lifecycle :=
  if eqb (pathname req) (str "/") then
    respond
      {| status := 200;
         headers := [(str "Content-Type", str "text/html");
                     (str "Cache-Control", str "public, max-age=300")];
         body := FileBody (str "../public/index.html") |}
  else if eqb (pathname req) (str "/api/platforms") then
    respond
      {| status := 200;
         headers := [(str "Content-Type", str "application/json");
                     (str "Access-Control-Allow-Origin", str "*")];
         body := JsonText (JArray getSupportedPlatforms) |}
  else if eqb (pathname req) (str "/api/download") then
    streamVideo req probe
  else if eqb (pathname req) (str "/twitter/stream") then
    streamVideo req probe
  else if eqb (pathname req) (str "/health") then
    respond
      {| status := 200;
         headers := json_headers;
         body :=
           JsonText
             (JObject [(str "status", JString (str "ok"));
                       (str "timestamp", JNumber now)]) |}
  else
    respond {| status := 404; headers := []; body := PlainText (str "Not Found") |}.

(** ** Predicates and sample data of the properties *)

(** A code unit that no stage of the sanitizer touches. *)
Definition tidy (c : N) : bool :=
  negb (is_illegal c) && negb (is_space c) && (c <=? 127).

(** The two answers of the classifier. *)
Definition unsupported : Validation :=
  {| valid := false; platform := None; v_icon := None |}.

Definition supported (p : PlatformConfig) : Validation :=
  {| valid := true; platform := Some (name p); v_icon := Some (icon p) |}.

(** A request answered at once: nothing was started for it. *)
Definition idle (r : Response) (st : Lifecycle) : Prop :=
  phase st = Settled r /\ titleProc st = None /\ ytdlp st = None
  /\ ffmpeg st = None /\ titleTimeout st = false /\ relaying st = false
  /\ abortListener st = false.

(** What holds of every state of a request: the transcoder is never
    started without the abort handler, and while the title is awaited
    neither child exists. *)
Definition wired (st : Lifecycle) : Prop :=
  (ffmpeg st <> None -> abortListener st = true)
  /\ (forall u q v, phase st = AwaitingTitle u q v ->
        ytdlp st = None /\ ffmpeg st = None).

(** Both children have been told to die, and the answer is out. *)
Definition both_killed (st : Lifecycle) : Prop :=
  is_killed (ytdlp st) = true /\ is_killed (ffmpeg st) = true
  /\ exists r, phase st = Settled r.

(** A request for a clip on a supported platform. *)
Definition clip_request : Request :=
  {| pathname := str "/api/download";
     searchParams := [(str "url", str "https://vimeo.com/76979871")] |}.

(** The site an input points at, for the proofs about the classifier:
    what follows the scheme and an optional [www.] is looked up in the
    host literals of the ten patterns, in the order of the list. *)
Definition drop_prefix (p s : jsstring) : option jsstring :=
  if startsWith s p then Some (skipn (List.length p) s) else None.

Definition drop_optional (p s : jsstring) : jsstring :=
  match drop_prefix p s with
  | Some rest => rest
  | None => s
  end.

Definition after_scheme (url : jsstring) : option jsstring :=
  match drop_prefix (str "http") url with
  | None => None
  | Some r =>
      match drop_prefix (str "://") (drop_optional (str "s") r) with
      | None => None
      | Some host => Some (drop_optional (str "www.") host)
      end
  end.

Definition host_literals : list (list string) :=
  [ ["x.com"; "twitter.com"]; ["instagram.com/"];
    ["youtube.com/watch?v="; "youtu.be/"]; ["reddit.com/r/"];
    ["tiktok.com/@"; "vm.tiktok.com/"]; ["facebook.com"; "fb.watch"];
    ["vimeo.com/"]; ["clips.twitch.tv/"; "twitch.tv/"]; ["pinterest."];
    ["dailymotion.com/video/"] ]%string.

Fixpoint index_of_host (groups : list (list string)) (host : jsstring)
    (i : nat) : option nat :=
  match groups with
  | [] => None
  | g :: rest =>
      if existsb (fun k => startsWith host (str k)) g then Some i
      else index_of_host rest host (S i)
  end.

Definition site_of (url : jsstring) : option nat :=
  match after_scheme url with
  | Some host => index_of_host host_literals host 0
  | None => None
  end.

(** The two parameters [streamVideo] reads from the query. *)
Definition request_url (req : Request) : option jsstring :=
  searchParams_get (searchParams req) (str "url").

Definition request_quality (req : Request) : jsstring :=
  or_default (searchParams_get (searchParams req) (str "quality"))
    (str "best").

(** The quality tiers with a case of their own in the program. *)
Definition tiers : list jsstring :=
  map str ["audio"; "720"; "1080"; "4k"; "2160"]%string.

(** A state without the quality string it keeps while the title is
    awaited. *)
Definition forget_quality (st : Lifecycle) : Lifecycle :=
  {| phase :=
       match phase st with
       | AwaitingTitle u _ v => AwaitingTitle u (str "best") v
       | Settled r => Settled r
       end;
     titleProc := titleProc st; titleTimeout := titleTimeout st;
     ytdlp := ytdlp st; ffmpeg := ffmpeg st; relaying := relaying st;
     abortListener := abortListener st; aborted := aborted st |}.

(** Visible ASCII and the space: what a header line may carry. *)
Definition printable (c : N) : bool := (32 <=? c) && (c <=? 126).

(** A response whose header lines are safe to send: visible ASCII only,
    and a bounded length. *)
Definition headers_ok (r : Response) : Prop :=
  forall k v, In (k, v) (headers r) ->
    forallb printable k = true /\ forallb printable v = true
    /\ (List.length v <= 363)%nat.

(** The command lines of the children of a request, and what is kept
    while the title is awaited, in terms of the query. *)
Definition commands_ok (req : Request) (st : Lifecycle) : Prop :=
  (forall c, titleProc st = Some c ->
     exists u, request_url req = Some u /\ valid (isValidUrl u) = true
       /\ cmd c = [str "yt-dlp"; str "--print"; str "title"; u])
  /\ (forall c, ytdlp st = Some c ->
     exists u, request_url req = Some u /\ valid (isValidUrl u) = true
       /\ cmd c
          = [str "yt-dlp"; str "-f";
             getYtDlpFormat (request_quality req) (platform (isValidUrl u));
             str "-o"; str "-"; u])
  /\ (forall c, ffmpeg st = Some c ->
     cmd c = ffmpegCmd (eqb (request_quality req) (str "audio")))
  /\ (forall u q v, phase st = AwaitingTitle u q v ->
     request_url req = Some u /\ q = request_quality req
     /\ v = isValidUrl u /\ valid v = true).

(** The abort signal has fired and found no handler for the two running
    children. *)
Definition deaf (st : Lifecycle) : Prop :=
  aborted st = true /\ running_unkilled (ytdlp st) = true
  /\ running_unkilled (ffmpeg st) = true
  /\ exists r, phase st = Settled r.

(** The request was answered 500 for [e], the downloader runs, and nothing
    is left that could stop it. *)
Definition orphaned (e : Thrown) (st : Lifecycle) : Prop :=
  phase st = Settled (error500 e) /\ running_unkilled (ytdlp st) = true
  /\ ffmpeg st = None /\ abortListener st = false
  /\ relaying st = false /\ titleTimeout st = false.

(** While the relay runs, both children exist and the answer is out. *)
Definition piped (st : Lifecycle) : Prop :=
  relaying st = true ->
  ytdlp st <> None /\ ffmpeg st <> None /\ exists r, phase st = Settled r.

(** The name of the header that opens an answer to other origins. *)
Definition allow_origin : jsstring := str "Access-Control-Allow-Origin".

(** What an answer says about the state of its request: a 200 answer is
    the output of the transcoder, running with a downloader and the abort
    handler; any other answer is a JSON object with an [error] key. *)
Definition served (st : Lifecycle) : Prop :=
  forall r, phase st = Settled r ->
    (status r = 200 ->
     exists y f, ytdlp st = Some y /\ ffmpeg st = Some f
       /\ body r = StdoutOf (cmd f) /\ abortListener st = true)
    /\ (status r <> 200 ->
        exists v, body r = JsonText v /\ field (str "error") v <> None
          /\ headers r = json_headers).

(** Two entries of the platform list, and two requests, for the examples. *)
Definition vimeo_config : PlatformConfig :=
  nth 6 SUPPORTED_PLATFORMS {| name := []; pattern := Void; icon := [] |}.

Definition youtube_config : PlatformConfig :=
  nth 2 SUPPORTED_PLATFORMS {| name := []; pattern := Void; icon := [] |}.

Definition clip_url : jsstring := str "https://vimeo.com/76979871".

Definition odd_quality_request : Request :=
  {| pathname := str "/api/download";
     searchParams := [(str "url", clip_url); (str "quality", str "480")] |}.

(** While the title is awaited, the quality kept is none of the tiers. *)
Definition untiered (st : Lifecycle) : Prop :=
  forall u q v, phase st = AwaitingTitle u q v -> ~ In q tiers.

(* ================================================================= *)
(** * Part II: properties *)
(* ================================================================= *)

Section Sanitizer.

Lemma replace_class_g_cons cls f c s :
  replace_class_g cls f (c :: s)
  = (if cls c then f c else [c]) ++ replace_class_g cls f s.
Proof. reflexivity. Qed.

Lemma replace_illegal_filter s :
  replace_class_g is_illegal (fun _ => str "") s
  = filter (fun c => negb (is_illegal c)) s.
Proof.
  induction s as [|c s IH]; [reflexivity|].
  rewrite replace_class_g_cons, IH. simpl.
  now destruct (is_illegal c).
Qed.

Lemma replace_illegal_legal s :
  forallb (fun c => negb (is_illegal c))
    (replace_class_g is_illegal (fun _ => str "") s) = true.
Proof.
  rewrite replace_illegal_filter.
  induction s as [|c s IH]; simpl; [reflexivity|].
  destruct (is_illegal c) eqn:E; simpl; [assumption|].
  now rewrite E.
Qed.

Lemma replace_runs_from_spaceless b s :
  forallb (fun c => negb (is_illegal c)) s = true ->
  forallb (fun c => negb (is_illegal c) && negb (is_space c))
    (replace_runs_from is_space (str "_") b s) = true.
Proof.
  revert b; induction s as [|c s IH]; intros b H; simpl; [reflexivity|].
  simpl in H. apply andb_true_iff in H as [Hc Hs].
  destruct (is_space c) eqn:E.
  - destruct b; simpl; auto.
  - simpl. rewrite Hc, E. simpl. auto.
Qed.

Lemma replace_non_ascii_tidy s :
  forallb (fun c => negb (is_illegal c) && negb (is_space c)) s = true ->
  forallb tidy (replace_class_g non_ascii ascii_or_underscore s) = true.
Proof.
  induction s as [|c s IH]; intros H; [reflexivity|].
  simpl in H. apply andb_true_iff in H as [Hc Hs].
  rewrite replace_class_g_cons, forallb_app, (IH Hs), andb_true_r.
  unfold non_ascii, ascii_or_underscore.
  destruct (c <=? 127) eqn:E; simpl.
  - unfold tidy. now rewrite Hc, E.
  - destruct (c <? 128) eqn:E'; simpl; [|reflexivity].
    apply N.leb_gt in E. apply N.ltb_lt in E'. lia.
Qed.

Lemma forallb_firstn {A} (p : A -> bool) n (l : list A) :
  forallb p l = true -> forallb p (firstn n l) = true.
Proof.
  revert l; induction n as [|n IH]; intros [|x l]; simpl; auto.
  intros H. apply andb_true_iff in H as [Hx Hl].
  now rewrite Hx, IH.
Qed.

Lemma sanitizeFilename_tidy s : forallb tidy (sanitizeFilename s) = true.
Proof.
  unfold sanitizeFilename, substring0, replace_runs_g.
  apply forallb_firstn, replace_non_ascii_tidy, replace_runs_from_spaceless,
    replace_illegal_legal.
Qed.

Lemma sanitizeFilename_length s : (List.length (sanitizeFilename s) <= 100)%nat.
Proof. unfold sanitizeFilename, substring0. apply firstn_le_length. Qed.

(** The stages are the identity on a tidy string. *)
Lemma tidy_replace_illegal s :
  forallb tidy s = true ->
  replace_class_g is_illegal (fun _ => str "") s = s.
Proof.
  induction s as [|c s IH]; intros H; [reflexivity|].
  simpl in H. apply andb_true_iff in H as [Hc Hs].
  rewrite replace_class_g_cons, (IH Hs).
  unfold tidy in Hc. destruct (is_illegal c); [discriminate|reflexivity].
Qed.

Lemma tidy_replace_runs s :
  forallb tidy s = true -> replace_runs_from is_space (str "_") false s = s.
Proof.
  induction s as [|c s IH]; intros H; [reflexivity|].
  simpl in H. apply andb_true_iff in H as [Hc Hs].
  unfold tidy in Hc.
  destruct (is_space c) eqn:E.
  - rewrite andb_false_r in Hc. discriminate.
  - cbn [replace_runs_from]. now rewrite E, (IH Hs).
Qed.

Lemma tidy_replace_non_ascii s :
  forallb tidy s = true ->
  replace_class_g non_ascii ascii_or_underscore s = s.
Proof.
  induction s as [|c s IH]; intros H; [reflexivity|].
  simpl in H. apply andb_true_iff in H as [Hc Hs].
  rewrite replace_class_g_cons, (IH Hs).
  unfold tidy in Hc. apply andb_true_iff in Hc as [_ Hc].
  unfold non_ascii. now rewrite Hc.
Qed.

Lemma sanitizeFilename_fixpoint s :
  forallb tidy s = true -> (List.length s <= 100)%nat -> sanitizeFilename s = s.
Proof.
  intros Ht Hl. unfold sanitizeFilename, replace_runs_g, substring0.
  rewrite (tidy_replace_illegal _ Ht), (tidy_replace_runs _ Ht),
    (tidy_replace_non_ascii _ Ht).
  now apply firstn_all2.
Qed.

End Sanitizer.

(** C6: the sanitizer's output has at most 100 code units and contains none
    of the nine characters slash, backslash, colon, star, question mark,
    double quote, less-than, greater-than, bar. *)
Theorem sanitizeFilename_bounded_and_legal (s : jsstring) :
  (List.length (sanitizeFilename s) <= 100)%nat
  /\ forall c, In c (sanitizeFilename s) ->
       ~ In c [47; 92; 58; 42; 63; 34; 60; 62; 124].
Proof.
  split; [apply sanitizeFilename_length|].
  intros c Hin Hbad.
  pose proof (sanitizeFilename_tidy s) as Ht.
  rewrite forallb_forall in Ht. specialize (Ht c Hin).
  unfold tidy in Ht.
  assert (is_illegal c = true) as E.
  { unfold is_illegal. apply existsb_exists. exists c. split; [exact Hbad|].
    apply N.eqb_refl. }
  rewrite E in Ht. discriminate.
Qed.

(** C7: the sanitizer is idempotent: sanitizing a sanitized string changes
    nothing. *)
Theorem sanitizeFilename_idempotent (s : jsstring) :
  sanitizeFilename (sanitizeFilename s) = sanitizeFilename s.
Proof.
  apply sanitizeFilename_fixpoint.
  - apply sanitizeFilename_tidy.
  - apply sanitizeFilename_length.
Qed.


(** ** The matcher against the language of a pattern *)

Section Matcher.

Lemma nullable_matches_nil r : nullable r = true -> matches r [].
Proof.
  induction r as [| |p|r1 IH1 r2 IH2|r1 IH1 r2 IH2|r IH]; simpl; intros H;
    try discriminate.
  - constructor.
  - apply andb_true_iff in H as [H1 H2].
    apply (m_cat r1 r2 [] []); auto.
  - apply orb_true_iff in H as [H|H];
      [apply m_alt_l | apply m_alt_r]; auto.
  - constructor.
Qed.

Lemma matches_nil_nullable r s : matches r s -> s = [] -> nullable r = true.
Proof.
  induction 1 as [|p c Hp|r1 r2 s1 s2 _ IH1 _ IH2|r1 r2 s _ IH|r1 r2 s _ IH
                  |r|r s1 s2 _ _ _ _]; intros E; simpl; auto.
  - discriminate.
  - apply app_eq_nil in E as [E1 E2]. now rewrite IH1, IH2.
  - now rewrite IH.
  - rewrite IH by assumption. apply orb_true_r.
Qed.

Lemma deriv_sound c r : forall s, matches (deriv c r) s -> matches r (c :: s).
Proof.
  induction r as [| |p|r1 IH1 r2 IH2|r1 IH1 r2 IH2|r IH]; simpl; intros s H.
  - inversion H.
  - inversion H.
  - destruct (p c) eqn:E; inversion H; subst. now constructor.
  - destruct (nullable r1) eqn:E.
    + inversion H as [| | | ? ? ? Hl | ? ? ? Hr | |]; subst.
      * inversion Hl as [| |? ? s1 s2 H1 H2| | | |]; subst.
        apply (m_cat r1 r2 (c :: s1) s2); auto.
      * apply (m_cat r1 r2 [] (c :: s)); auto using nullable_matches_nil.
    + inversion H as [| |? ? s1 s2 H1 H2| | | |]; subst.
      apply (m_cat r1 r2 (c :: s1) s2); auto.
  - inversion H; subst; [apply m_alt_l | apply m_alt_r]; auto.
  - inversion H as [| |? ? s1 s2 H1 H2| | | |]; subst.
    apply (m_star_cons r (c :: s1) s2); auto.
Qed.

Lemma deriv_complete r s' :
  matches r s' -> forall c s, s' = c :: s -> matches (deriv c r) s.
Proof.
  induction 1 as [|p c0 Hp|r1 r2 s1 s2 H1 IH1 H2 IH2|r1 r2 s0 _ IH
                  |r1 r2 s0 _ IH|r|r s1 s2 H1 IH1 H2 IH2];
    intros c s E; simpl.
  - discriminate.
  - injection E as -> <-. rewrite Hp. constructor.
  - destruct s1 as [|c1 s1]; simpl in E.
    + rewrite (matches_nil_nullable _ _ H1 eq_refl).
      apply m_alt_r. now apply IH2.
    + injection E as -> <-.
      destruct (nullable r1).
      * apply m_alt_l. constructor; auto.
      * constructor; auto.
  - apply m_alt_l. now apply IH.
  - apply m_alt_r. now apply IH.
  - discriminate.
  - destruct s1 as [|c1 s1]; simpl in E.
    + now apply IH2.
    + injection E as -> <-. constructor; auto.
Qed.

(** [test] finds exactly the inputs one of whose prefixes is in the
    language of the pattern body. *)
Lemma test_spec r s :
  test r s = true <-> exists p q, s = p ++ q /\ matches r p.
Proof.
  revert r; induction s as [|c t IH]; intros r; simpl.
  - rewrite orb_false_r. split.
    + intros H. exists [], []. auto using nullable_matches_nil.
    + intros (p & q & E & H). symmetry in E.
      apply app_eq_nil in E as [-> _].
      now apply (matches_nil_nullable r []).
  - rewrite orb_true_iff, IH. split.
    + intros [H|(p & q & -> & H)].
      * exists [], (c :: t). auto using nullable_matches_nil.
      * exists (c :: p), q. auto using deriv_sound.
    + intros (p & q & E & H). destruct p as [|c' p]; simpl in E.
      * left. now apply (matches_nil_nullable r []).
      * injection E as <- ->. right. exists p, q.
        split; [reflexivity|]. now apply (deriv_complete r (c :: p)).
Qed.

Lemma matches_lit l s : matches (lit l) s -> s = str l.
Proof.
  revert s; induction l as [|a l IH]; simpl; intros s H.
  - now inversion H.
  - inversion H as [| |? ? s1 s2 H1 H2| | | |]; subst.
    inversion H1; subst. simpl.
    match goal with E : N.eqb _ _ = true |- _ => apply N.eqb_eq in E as <- end.
    now rewrite (IH _ H2).
Qed.

(** The common head of the platform patterns fixes the first code units
    of whatever they match. *)
Lemma scheme_prefix rest p q :
  matches (lit "http" ;; opt (chr "s") ;; lit "://" ;; rest)%re p ->
  startsWith (p ++ q) (str "http://") = true
  \/ startsWith (p ++ q) (str "https://") = true.
Proof.
  intros H.
  inversion H as [| |? ? s1 s2 H1 H2| | | |]; subst.
  apply (matches_lit "http") in H1 as ->.
  inversion H2 as [| |? ? s3 s4 H3 H4| | | |]; subst.
  inversion H4 as [| |? ? s5 s6 H5 H6| | | |]; subst.
  apply (matches_lit "://") in H5 as ->.
  inversion H3 as [| | |? ? ? Hs|? ? ? He| |]; subst.
  - inversion Hs; subst.
    match goal with E : N.eqb _ _ = true |- _ => apply N.eqb_eq in E as <- end.
    right. reflexivity.
  - inversion He; subst. left. reflexivity.
Qed.

End Matcher.

(** ** The URL classifier *)

Section Classifier.

Lemma isValidUrl_from_first url before p after :
  (forall q, In q before -> test (pattern q) url = false) ->
  test (pattern p) url = true ->
  isValidUrl_from (before ++ p :: after) url = supported p.
Proof.
  induction before as [|b before IH]; simpl; intros Hb Hp.
  - now rewrite Hp.
  - rewrite (Hb b) by now left. apply IH; auto.
Qed.

Lemma isValidUrl_from_none url ps :
  (forall q, In q ps -> test (pattern q) url = false) ->
  isValidUrl_from ps url = unsupported.
Proof.
  induction ps as [|b ps IH]; simpl; intros Hb; [reflexivity|].
  rewrite (Hb b) by now left. apply IH; auto.
Qed.

Lemma all_patterns_anchored_to_scheme :
  Forall (fun p => exists rest,
              pattern p
              = (lit "http" ;; opt (chr "s") ;; lit "://" ;; rest)%re)
    SUPPORTED_PLATFORMS.
Proof. repeat constructor; eexists; reflexivity. Qed.

End Classifier.

(** C3: the classifier tries the platform patterns in list order and
    answers with the first platform whose pattern matches; when no pattern
    matches it answers that the URL is not supported. *)
Theorem isValidUrl_first_match (url : jsstring) :
  (forall before p after,
      SUPPORTED_PLATFORMS = before ++ p :: after ->
      (forall q, In q before -> test (pattern q) url = false) ->
      test (pattern p) url = true ->
      isValidUrl url
      = {| valid := true; platform := Some (name p);
           v_icon := Some (icon p) |})
  /\ ((forall q, In q SUPPORTED_PLATFORMS -> test (pattern q) url = false) ->
      isValidUrl url = {| valid := false; platform := None; v_icon := None |}).
Proof.
  unfold isValidUrl. split.
  - intros before p after -> Hb Hp. now apply isValidUrl_from_first.
  - apply isValidUrl_from_none.
Qed.

(** C10: every platform pattern begins with the http or https scheme, so an
    input that starts with neither is answered "not supported". *)
Theorem isValidUrl_requires_http_scheme (url : jsstring) :
  startsWith url (str "http://") = false ->
  startsWith url (str "https://") = false ->
  isValidUrl url = {| valid := false; platform := None; v_icon := None |}.
Proof.
  intros H1 H2. apply isValidUrl_from_none. intros q Hq.
  pose proof all_patterns_anchored_to_scheme as Hall.
  rewrite Forall_forall in Hall. destruct (Hall q Hq) as [rest E].
  destruct (test (pattern q) url) eqn:T; [|reflexivity].
  apply test_spec in T as (p & s & -> & Hm). rewrite E in Hm.
  destruct (scheme_prefix rest p s Hm) as [C|C]; congruence.
Qed.

(** ** String equality and the format selector *)

Section Selector.

Lemma eqb_eq a b : eqb a b = true <-> a = b.
Proof.
  revert b; induction a as [|x a IH]; intros [|y b]; simpl;
    try (split; [discriminate | discriminate]); [tauto|].
  rewrite andb_true_iff, N.eqb_eq, IH. split.
  - now intros [-> ->].
  - intros E. now injection E.
Qed.

(** What the selector answers for ["best"], by expression family. *)
Lemma getYtDlpFormat_best platform :
  getYtDlpFormat (str "best") platform
  = if includes_opt platform (str "YouTube")
    then str "bestvideo[ext=mp4]+bestaudio[ext=m4a]/best[ext=mp4]/best"
    else str "bv*+ba/b".
Proof.
  unfold getYtDlpFormat.
  now destruct (includes_opt platform (str "YouTube")).
Qed.

End Selector.

(** C4: the format selector answers every (quality, platform) pair with a
    non-empty expression, and a quality outside audio, 720, 1080, 4k, 2160,
    best gets the expression of best, in the YouTube family and in the
    generic family alike. *)
Theorem getYtDlpFormat_total_default
    (quality : jsstring) (platform : option jsstring) :
  getYtDlpFormat quality platform <> []
  /\ (~ In quality
        (map str ["audio"; "720"; "1080"; "4k"; "2160"; "best"]%string) ->
      getYtDlpFormat quality platform
      = getYtDlpFormat (str "best") platform).
Proof.
  split.
  - unfold getYtDlpFormat.
    destruct (includes_opt platform (str "YouTube"));
      repeat match goal with
             | |- context [if ?b then _ else _] => destruct b
             end; discriminate.
  - intros H. rewrite getYtDlpFormat_best. unfold getYtDlpFormat.
    destruct (includes_opt platform (str "YouTube"));
      repeat match goal with
             | |- context [eqb quality (str ?l)] =>
                 let E := fresh "E" in
                 destruct (eqb quality (str l)) eqn:E;
                 [apply eqb_eq in E; exfalso; apply H; rewrite E; simpl; tauto|]
             end; reflexivity.
Qed.

(** ** The sanitizer's empty outputs *)

Section EmptyOutput.

Lemma sanitizeFilename_nil s :
  sanitizeFilename s = []
  <-> filter (fun c => negb (is_illegal c)) s = [].
Proof.
  unfold sanitizeFilename, substring0, replace_runs_g.
  rewrite replace_illegal_filter.
  generalize (filter (fun c => negb (is_illegal c)) s) as l.
  intros [|c l]; [tauto|].
  split; [|discriminate]. intros H. exfalso. revert H.
  cbn [replace_runs_from].
  destruct (is_space c).
  - simpl. unfold non_ascii, ascii_or_underscore. simpl. discriminate.
  - rewrite replace_class_g_cons.
    unfold non_ascii, ascii_or_underscore.
    destruct (c <=? 127), (c <? 128); simpl; discriminate.
Qed.

Lemma filter_nil_forallb {A} (p : A -> bool) l :
  filter (fun x => negb (p x)) l = [] <-> forallb p l = true.
Proof.
  induction l as [|x l IH]; simpl; [tauto|].
  destruct (p x); simpl; [exact IH|]. split; discriminate.
Qed.

End EmptyOutput.

(** C1, as the code has it: the sanitizer has no fallback of its own.  Its
    output is empty exactly when every character of the input is one of
    the nine removed ones, the empty input included; the default name is
    chosen by the caller, for a probed title that is empty once trimmed or
    that could not be read, before the sanitizer runs. *)
Theorem sanitizeFilename_empty_iff_all_removed :
  (forall s : jsstring,
      sanitizeFilename s = [] <-> forallb is_illegal s = true)
  /\ (forall raw : option jsstring,
         match raw with Some t => trim t = [] | None => True end ->
         sanitizeFilename (probedTitle raw) = str "video").
Proof.
  split.
  - intros s. rewrite sanitizeFilename_nil. apply filter_nil_forallb.
  - intros [t|] H; simpl; [rewrite H|]; reflexivity.
Qed.

(** C1, counterexample: on the empty input, and on an input made of removed
    characters only, the sanitizer returns the empty string. *)
Lemma sanitizeFilename_can_be_empty :
  sanitizeFilename (str "") = str ""
  /\ sanitizeFilename (str "???") = str "".
Proof. split; reflexivity. Qed.

(** ** The router and the validation step *)

Section Validation.

Lemma fetch_download req now probe :
  pathname req = str "/api/download" ->
  fetch req now probe = streamVideo req probe.
Proof. intros E. unfold fetch. rewrite E. reflexivity. Qed.

Lemma fetch_legacy req now probe :
  pathname req = str "/twitter/stream" ->
  fetch req now probe = streamVideo req probe.
Proof. intros E. unfold fetch. rewrite E. reflexivity. Qed.

(** [streamVideo] reads nothing of the request but its query. *)
Lemma streamVideo_query r1 r2 probe :
  searchParams r1 = searchParams r2 ->
  streamVideo r1 probe = streamVideo r2 probe.
Proof. intros E. unfold streamVideo. now rewrite E. Qed.

(** A 400 answer comes from the validation step, which starts nothing. *)
Lemma streamVideo_400 req probe r :
  phase (streamVideo req probe) = Settled r -> status r = 400 ->
  streamVideo req probe = respond r.
Proof.
  unfold streamVideo.
  destruct (searchParams_get (searchParams req) (str "url")) as [[|c u]|];
    simpl.
  - intros E _. now injection E as <-.
  - destruct (valid (isValidUrl (c :: u))); simpl.
    + destruct probe as [|e]; simpl; [discriminate|].
      intros E S. injection E as <-. discriminate.
    + intros E _. now injection E as <-.
  - intros E _. now injection E as <-.
Qed.

Lemma respond_idle r : idle r (respond r).
Proof. repeat split. Qed.

Lemma step_idle r st ev st' :
  idle r st -> step st ev = Some st' -> idle r st'.
Proof.
  intros (Hp & Ht & Hy & Hf & Hto & Hr & Hl).
  destruct ev; simpl; rewrite ?Hp, ?Hto, ?Hr; try discriminate.
  destruct (aborted st); [discriminate|].
  intros E. injection E as <-. rewrite Hl.
  repeat split; assumption.
Qed.

Lemma run_idle r evs : forall st st',
  idle r st -> run st evs = Some st' -> idle r st'.
Proof.
  induction evs as [|ev evs IH]; simpl; intros st st' Hi E.
  - now injection E as <-.
  - destruct (step st ev) as [st1|] eqn:S; [|discriminate].
    eauto using step_idle.
Qed.

End Validation.

(** C5, as the code has it: a request to the download endpoint whose url
    parameter is present and not empty but matches no platform pattern is
    answered 400 with a JSON body whose "supported" field is the array of
    all platform names in configuration order; a request with no url
    parameter, or with an empty one, is answered 400 with a JSON body that
    has an "error" key. *)
Theorem download_rejects_bad_url
    (req : Request) (now : N) (probe : SpawnOutcome) :
  pathname req = str "/api/download" ->
  (forall u,
      searchParams_get (searchParams req) (str "url") = Some u ->
      u <> [] ->
      (forall p, In p SUPPORTED_PLATFORMS -> test (pattern p) u = false) ->
      exists r v,
        phase (fetch req now probe) = Settled r /\ status r = 400
        /\ body r = JsonText v
        /\ field (str "supported") v
           = Some (JArray (map JString (map name SUPPORTED_PLATFORMS))))
  /\ (searchParams_get (searchParams req) (str "url") = None
      \/ searchParams_get (searchParams req) (str "url") = Some [] ->
      exists r v,
        phase (fetch req now probe) = Settled r /\ status r = 400
        /\ body r = JsonText v
        /\ field (str "error") v <> None).
Proof.
  intros Hpath. rewrite (fetch_download _ _ _ Hpath). split.
  - intros u Hu Hne Hnone. unfold streamVideo. rewrite Hu.
    destruct u as [|c u]; [contradiction|].
    fold (isValidUrl_from SUPPORTED_PLATFORMS (c :: u)).
    unfold isValidUrl.
    rewrite (isValidUrl_from_none _ _ Hnone). simpl.
    do 2 eexists. repeat split.
  - intros H. unfold streamVideo.
    destruct H as [-> | ->]; simpl; do 2 eexists; repeat split; discriminate.
Qed.

(** C5, counterexample: the url parameter is present (and empty), it
    matches no platform pattern, and the answer has no "supported" field. *)
Lemma empty_url_answer_lacks_supported :
  let req := {| pathname := str "/api/download";
                searchParams := [(str "url", str "")] |} in
  searchParams_get (searchParams req) (str "url") = Some (str "")
  /\ (forall p, In p SUPPORTED_PLATFORMS -> test (pattern p) (str "") = false)
  /\ exists r v,
       phase (fetch req 0 Started) = Settled r /\ status r = 400
       /\ body r = JsonText v
       /\ field (str "supported") v = None.
Proof.
  simpl. split; [reflexivity|]. split.
  - intros p Hp.
    repeat (destruct Hp as [<-|Hp]; [reflexivity|]). contradiction.
  - do 2 eexists. repeat split.
Qed.

(** C8: the legacy path and the download path are handled alike: each
    hands the request to [streamVideo], so two requests with the same
    query get the same answer, and the same lifecycle, on either path. *)
Theorem legacy_route_is_alias
    (r1 r2 : Request) (now : N) (probe : SpawnOutcome) :
  pathname r1 = str "/api/download" ->
  pathname r2 = str "/twitter/stream" ->
  searchParams r1 = searchParams r2 ->
  fetch r1 now probe = streamVideo r1 probe
  /\ fetch r2 now probe = streamVideo r2 probe
  /\ fetch r1 now probe = fetch r2 now probe.
Proof.
  intros H1 H2 Hq.
  rewrite (fetch_download _ _ _ H1), (fetch_legacy _ _ _ H2).
  auto using streamVideo_query.
Qed.

(** C9: a request that is answered 400 started no process: no title probe,
    no downloader, no transcoder, no timer, no relay and no abort handler,
    at the time of the answer and whatever is delivered afterwards. *)
Theorem validation_error_spawns_nothing
    (req : Request) (probe : SpawnOutcome) (r : Response)
    (evs : list Event) (st : Lifecycle) :
  phase (streamVideo req probe) = Settled r ->
  status r = 400 ->
  run (streamVideo req probe) evs = Some st ->
  phase st = Settled r /\ titleProc st = None /\ ytdlp st = None
  /\ ffmpeg st = None /\ titleTimeout st = false /\ relaying st = false
  /\ abortListener st = false.
Proof.
  intros Hp Hs Hrun.
  rewrite (streamVideo_400 _ _ _ Hp Hs) in Hrun.
  exact (run_idle r evs _ _ (respond_idle r) Hrun).
Qed.

(** ** Cancellation *)

Section Cancellation.

Lemma option_map_kill_none c : option_map kill c <> None -> c <> None.
Proof. now destruct c. Qed.

Lemma option_map_end_stdin_none c :
  option_map end_stdin c <> None -> c <> None.
Proof. now destruct c. Qed.

Lemma is_killed_kill c : c <> None -> is_killed (option_map kill c) = true.
Proof. destruct c; [reflexivity|congruence]. Qed.

Lemma is_killed_kill_mono c :
  is_killed c = true -> is_killed (option_map kill c) = true.
Proof. now destruct c. Qed.

Lemma is_killed_end_stdin c :
  is_killed (option_map end_stdin c) = is_killed c.
Proof. now destruct c. Qed.

Lemma streamVideo_wired req probe : wired (streamVideo req probe).
Proof.
  unfold streamVideo.
  destruct (searchParams_get (searchParams req) (str "url")) as [[|c u]|];
    [| destruct (valid (isValidUrl (c :: u))); [destruct probe|] |];
    split; simpl; try congruence; auto.
Qed.

Lemma resume_wired st u q v raw yt ff : wired (resume st u q v raw yt ff).
Proof.
  unfold resume.
  destruct yt; [destruct ff; [destruct (encodeURIComponent _)|]|];
    split; simpl; try congruence; auto.
Qed.

Lemma step_wired st ev st' : wired st -> step st ev = Some st' -> wired st'.
Proof.
  intros [Hl Hw]. destruct ev; simpl.
  - destruct (aborted st); [discriminate|]. intros E. injection E as <-.
    split; simpl.
    + destruct (abortListener st); auto using option_map_kill_none.
    + intros u q v Hp. destruct (Hw u q v Hp) as [-> ->].
      now destruct (abortListener st).
  - destruct (titleTimeout st); [|discriminate].
    intros E. injection E as <-. split; simpl; auto.
  - destruct (phase st); [|discriminate].
    intros E. injection E as <-. apply resume_wired.
  - destruct (relaying st); [|discriminate].
    intros E. injection E as <-. now split.
  - destruct (relaying st); [|discriminate].
    intros E. injection E as <-. split; simpl.
    + auto using option_map_end_stdin_none.
    + intros u q v Hp. now destruct (Hw u q v Hp) as [-> ->].
  - destruct (relaying st); [|discriminate].
    intros E. injection E as <-. split; simpl.
    + auto using option_map_kill_none.
    + intros u q v Hp. now destruct (Hw u q v Hp) as [-> ->].
Qed.

Lemma run_wired evs : forall st st',
  wired st -> run st evs = Some st' -> wired st'.
Proof.
  induction evs as [|ev evs IH]; simpl; intros st st' Hw E.
  - now injection E as <-.
  - destruct (step st ev) as [st1|] eqn:S; [|discriminate].
    eauto using step_wired.
Qed.

(** The abort signal reaches both children once they are wired. *)
Lemma abort_kills st st' :
  wired st -> ytdlp st <> None -> ffmpeg st <> None ->
  step st Abort = Some st' -> both_killed st'.
Proof.
  intros [Hl Hw] Hy Hf. simpl.
  destruct (aborted st); [discriminate|]. intros E. injection E as <-.
  rewrite (Hl Hf). repeat split; simpl; auto using is_killed_kill.
  destruct (phase st) as [u q v|r] eqn:P; [|now exists r].
  destruct (Hw u q v eq_refl) as [Hy' _]. congruence.
Qed.

(** Nothing revives a child. *)
Lemma step_both_killed st ev st' :
  both_killed st -> step st ev = Some st' -> both_killed st'.
Proof.
  intros (Hy & Hf & r & Hp). destruct ev; simpl.
  - destruct (aborted st); [discriminate|]. intros E. injection E as <-.
    repeat split; simpl; [| |now exists r];
      destruct (abortListener st); auto using is_killed_kill_mono.
  - destruct (titleTimeout st); [|discriminate].
    intros E. injection E as <-. repeat split; simpl; auto. now exists r.
  - rewrite Hp. discriminate.
  - destruct (relaying st); [|discriminate].
    intros E. injection E as <-. repeat split; auto. now exists r.
  - destruct (relaying st); [|discriminate].
    intros E. injection E as <-. repeat split; simpl; auto.
    + now rewrite is_killed_end_stdin.
    + now exists r.
  - destruct (relaying st); [|discriminate].
    intros E. injection E as <-.
    repeat split; simpl; auto using is_killed_kill_mono. now exists r.
Qed.

Lemma run_both_killed evs : forall st st',
  both_killed st -> run st evs = Some st' -> both_killed st'.
Proof.
  induction evs as [|ev evs IH]; simpl; intros st st' Hk E.
  - now injection E as <-.
  - destruct (step st ev) as [st1|] eqn:S; [|discriminate].
    eauto using step_both_killed.
Qed.

(** An abort delivered while the title is still awaited finds no handler:
    the children spawned afterwards run on, and the signal does not fire
    a second time. *)
Lemma abort_while_probing_is_lost :
  exists st,
    run (streamVideo clip_request Started)
      [Abort; TitleSettled (Some (str "clip")) Started Started] = Some st
    /\ aborted st = true
    /\ running_unkilled (ytdlp st) = true
    /\ running_unkilled (ffmpeg st) = true
    /\ step st Abort = None.
Proof. eexists. repeat split. Qed.

End Cancellation.

(** C2: once the downloader and the transcoder are both spawned, an abort
    of the request kills both: in the state after the abort, and in every
    state that follows it, [kill] has been called on either child. *)
Theorem abort_after_spawn_kills_both
    (req : Request) (probe : SpawnOutcome) (before after : list Event)
    (s1 s2 s3 : Lifecycle) :
  run (streamVideo req probe) before = Some s1 ->
  ytdlp s1 <> None -> ffmpeg s1 <> None ->
  step s1 Abort = Some s2 ->
  run s2 after = Some s3 ->
  is_killed (ytdlp s3) = true /\ is_killed (ffmpeg s3) = true
  /\ running_unkilled (ytdlp s3) = false
  /\ running_unkilled (ffmpeg s3) = false.
Proof.
  intros Hrun Hy Hf Habort Hafter.
  pose proof (run_wired before _ _ (streamVideo_wired req probe) Hrun) as Hw.
  pose proof (abort_kills _ _ Hw Hy Hf Habort) as Hk.
  destruct (run_both_killed after _ _ Hk Hafter) as (Ky & Kf & _).
  unfold running_unkilled, is_killed in *.
  destruct (ytdlp s3), (ffmpeg s3); try discriminate.
  rewrite Ky, Kf. auto.
Qed.

(** ** The theorems at concrete inputs *)

Lemma isValidUrl_first_match_witness :
  platform (isValidUrl (str "https://vimeo.com/76979871")) = Some (str "Vimeo")
  /\ valid (isValidUrl (str "https://example.com/not-a-platform")) = false.
Proof.
  split.
  - rewrite (proj1 (isValidUrl_first_match (str "https://vimeo.com/76979871"))
               (firstn 6 SUPPORTED_PLATFORMS)
               (nth 6 SUPPORTED_PLATFORMS
                  {| name := []; pattern := Void; icon := [] |})
               (skipn 7 SUPPORTED_PLATFORMS)).
    + reflexivity.
    + reflexivity.
    + intros q Hq. simpl in Hq.
      repeat (destruct Hq as [<-|Hq]; [vm_compute; reflexivity|]).
      contradiction.
    + vm_compute; reflexivity.
  - rewrite (proj2 (isValidUrl_first_match
                      (str "https://example.com/not-a-platform"))).
    + reflexivity.
    + intros q Hq. simpl in Hq.
      repeat (destruct Hq as [<-|Hq]; [vm_compute; reflexivity|]).
      contradiction.
Defined.

Lemma isValidUrl_requires_http_scheme_witness :
  startsWith (str "ftp://vimeo.com/76979871") (str "http://") = false
  /\ startsWith (str "ftp://vimeo.com/76979871") (str "https://") = false
  /\ isValidUrl (str "ftp://vimeo.com/76979871")
     = {| valid := false; platform := None; v_icon := None |}.
Proof.
  split; [reflexivity|]. split; [reflexivity|].
  apply (isValidUrl_requires_http_scheme (str "ftp://vimeo.com/76979871"));
    reflexivity.
Defined.

Lemma getYtDlpFormat_total_default_witness :
  getYtDlpFormat (str "480") (Some (str "YouTube"))
  = str "bestvideo[ext=mp4]+bestaudio[ext=m4a]/best[ext=mp4]/best"
  /\ getYtDlpFormat (str "480") None = str "bv*+ba/b".
Proof.
  split.
  - rewrite (proj2 (getYtDlpFormat_total_default (str "480")
                      (Some (str "YouTube")))).
    + reflexivity.
    + simpl. intros H.
      repeat (destruct H as [H|H]; [discriminate|]). exact H.
  - rewrite (proj2 (getYtDlpFormat_total_default (str "480") None)).
    + reflexivity.
    + simpl. intros H.
      repeat (destruct H as [H|H]; [discriminate|]). exact H.
Defined.

Lemma sanitizeFilename_empty_iff_all_removed_witness :
  sanitizeFilename (str "<?>") = []
  /\ sanitizeFilename (probedTitle (Some (str "   "))) = str "video".
Proof.
  split.
  - apply (proj1 sanitizeFilename_empty_iff_all_removed (str "<?>")).
    reflexivity.
  - apply (proj2 sanitizeFilename_empty_iff_all_removed (Some (str "   "))).
    reflexivity.
Defined.

Lemma download_rejects_bad_url_witness :
  (exists r v,
      phase (fetch {| pathname := str "/api/download";
                      searchParams :=
                        [(str "url",
                          str "https://example.com/not-a-platform")] |}
               0 Started) = Settled r
      /\ status r = 400 /\ body r = JsonText v
      /\ field (str "supported") v
         = Some (JArray (map JString (map name SUPPORTED_PLATFORMS))))
  /\ (exists r v,
         phase (fetch {| pathname := str "/api/download";
                         searchParams := [] |} 0 Started) = Settled r
         /\ status r = 400 /\ body r = JsonText v
         /\ field (str "error") v <> None).
Proof.
  split.
  - apply (proj1 (download_rejects_bad_url
                    {| pathname := str "/api/download";
                       searchParams :=
                         [(str "url",
                           str "https://example.com/not-a-platform")] |}
                    0 Started eq_refl)
             (str "https://example.com/not-a-platform")).
    + reflexivity.
    + discriminate.
    + intros q Hq. simpl in Hq.
      repeat (destruct Hq as [<-|Hq]; [vm_compute; reflexivity|]).
      contradiction.
  - apply (proj2 (download_rejects_bad_url
                    {| pathname := str "/api/download"; searchParams := [] |}
                    0 Started eq_refl)).
    left. reflexivity.
Defined.

Lemma legacy_route_is_alias_witness :
  fetch {| pathname := str "/api/download";
           searchParams := searchParams clip_request |} 0 Started
  = fetch {| pathname := str "/twitter/stream";
             searchParams := searchParams clip_request |} 0 Started.
Proof.
  apply (legacy_route_is_alias
           {| pathname := str "/api/download";
              searchParams := searchParams clip_request |}
           {| pathname := str "/twitter/stream";
              searchParams := searchParams clip_request |}
           0 Started); reflexivity.
Defined.

Lemma validation_error_spawns_nothing_witness :
  exists st,
    run (streamVideo {| pathname := str "/api/download";
                        searchParams := [(str "quality", str "720")] |}
           Started) [Abort] = Some st
    /\ titleProc st = None /\ ytdlp st = None /\ ffmpeg st = None
    /\ abortListener st = false.
Proof.
  eexists. split; [reflexivity|].
  edestruct validation_error_spawns_nothing
    with (req := {| pathname := str "/api/download";
                    searchParams := [(str "quality", str "720")] |})
         (probe := Started) (evs := [Abort])
    as (_ & Ht & Hy & Hf & _ & _ & Hl).
  - reflexivity.
  - reflexivity.
  - reflexivity.
  - simpl in *. repeat split; assumption.
Defined.

Lemma abort_after_spawn_kills_both_witness :
  exists st,
    run (streamVideo clip_request Started)
      [TitleSettled (Some (str "clip")) Started Started; RelayChunk;
       Abort; RelayDone] = Some st
    /\ is_killed (ytdlp st) = true /\ is_killed (ffmpeg st) = true.
Proof.
  eexists. split; [vm_compute; reflexivity|].
  edestruct (abort_after_spawn_kills_both clip_request Started
               [TitleSettled (Some (str "clip")) Started Started; RelayChunk]
               [RelayDone]) as (Ky & Kf & _).
  - vm_compute; reflexivity.
  - discriminate.
  - discriminate.
  - vm_compute; reflexivity.
  - vm_compute; reflexivity.
  - split; [exact Ky | exact Kf].
Defined.

(** ** The embedding on sample inputs *)

Section Samples.

Example sanitize_title :
  sanitizeFilename (str "My: Video   <1> | final?") = str "My_Video_1_final".
Proof. reflexivity. Qed.

Example sanitize_accent :
  sanitizeFilename [99; 97; 102; 233; 160; 8232; 55357; 56358]
  = str "caf____".
Proof. reflexivity. Qed.

Example trim_title : trim (str "  a title ") = str "a title".
Proof. reflexivity. Qed.

Example encode_filename :
  encodeURIComponent (str "a_b (1)&c.mp4") = Some (str "a_b%20(1)%26c.mp4").
Proof. reflexivity. Qed.

Example encode_pair :
  encodeURIComponent [233; 55357; 56358] = Some (str "%C3%A9%F0%9F%90%A6")
  /\ encodeURIComponent [55357] = None.
Proof. split; reflexivity. Qed.

Example classify_samples :
  map (fun u => platform (isValidUrl (str u)))
    ["https://x.com/user/status/123";
     "https://www.instagram.com/reel/Ab-_1/";
     "https://youtu.be/dQw4w9WgXcQ";
     "http://www.reddit.com/r/a/comments/b";
     "https://vm.tiktok.com/Zx";
     "https://fb.watch/watch/?v=1";
     "https://clips.twitch.tv/a";
     "https://pinterest.co.uk/pin/1";
     "https://dailymotion.com/video/x";
     "https://x.com//status/1";
     "see https://vimeo.com/1"]%string
  = [Some (str "Twitter/X"); Some (str "Instagram"); Some (str "YouTube");
     Some (str "Reddit"); Some (str "TikTok"); Some (str "Facebook");
     Some (str "Twitch Clips"); Some (str "Pinterest");
     Some (str "Dailymotion"); None; None].
Proof. vm_compute. reflexivity. Qed.

(** A whole successful request, up to the answer. *)
Example clip_answer :
  option_map phase
    (run (streamVideo clip_request Started)
       [TitleSettled (Some (str " A clip? ")) Started Started])
  = Some
      (Settled
         {| status := 200;
            headers :=
              [(str "Content-Type", str "video/mp4");
               (str "Content-Disposition",
                str "attachment; filename=" ++ [34] ++ str "video.mp4"
                ++ [34] ++ str "; filename*=UTF-8''A_clip.mp4");
               (str "Cache-Control", str "no-store");
               (str "X-Content-Type-Options", str "nosniff")];
            body := StdoutOf (ffmpegCmd false) |}).
Proof. vm_compute. reflexivity. Qed.

(** The sanitized name is ASCII, so encoding the file name cannot throw. *)
Lemma encodeURIComponent_ascii s :
  forallb (fun c => c <=? 127) s = true -> encodeURIComponent s <> None.
Proof.
  induction s as [|c s IH]; simpl; intros H; [discriminate|].
  apply andb_true_iff in H as [Hc Hs]. apply N.leb_le in Hc.
  specialize (IH Hs).
  destruct (encodeURIComponent s) as [e|]; [|congruence].
  destruct (uri_unreserved c); [discriminate|].
  unfold is_trail, is_lead.
  destruct (56320 <=? c) eqn:E1; [apply N.leb_le in E1; lia|].
  destruct (55296 <=? c) eqn:E2; [apply N.leb_le in E2; lia|].
  simpl. discriminate.
Qed.

Lemma tidy_ascii s :
  forallb tidy s = true -> forallb (fun c => c <=? 127) s = true.
Proof.
  induction s as [|c s IH]; simpl; intros H; [reflexivity|].
  apply andb_true_iff in H as [Hc Hs]. rewrite (IH Hs), andb_true_r.
  unfold tidy in Hc. now apply andb_true_iff in Hc as [_ Hc].
Qed.

(** Once both children are started the request is answered 200: the
    failure branch after [encodeURIComponent] is never taken. *)
Lemma resume_started_answers_200 st url quality validation raw :
  exists r,
    phase (resume st url quality validation raw Started Started) = Settled r
    /\ status r = 200
    /\ body r = StdoutOf (ffmpegCmd (eqb quality (str "audio"))).
Proof.
  unfold resume.
  destruct (encodeURIComponent
              (sanitizeFilename (probedTitle raw) ++ str "."
               ++ getFileExtension quality)) as [e|] eqn:E.
  - eexists. repeat split.
  - exfalso. revert E. apply encodeURIComponent_ascii.
    rewrite !forallb_app, (tidy_ascii _ (sanitizeFilename_tidy _)).
    unfold getFileExtension. now destruct (eqb quality (str "audio")).
Qed.

End Samples.


(* ================================================================= *)
(** * Part III: further properties of the code *)
(* ================================================================= *)

(** Case analysis on an enabled transition. *)
Ltac step_inv H st ev :=
  destruct ev; simpl in H;
  [ destruct (aborted st) eqn:?; [discriminate H|]
  | destruct (titleTimeout st) eqn:?; [|discriminate H]
  | destruct (phase st) eqn:?; [|discriminate H]
  | destruct (relaying st) eqn:?; [|discriminate H]
  | destruct (relaying st) eqn:?; [|discriminate H]
  | destruct (relaying st) eqn:?; [|discriminate H] ];
  injection H as <-.

(** ** The patterns are pairwise disjoint *)

Section Disjoint.

Lemma matches_lit_cat l r s :
  matches (lit l ;; r)%re s -> exists t, s = str l ++ t /\ matches r t.
Proof.
  intros H. inversion H as [| |? ? s1 s2 H1 H2| | | |]; subst.
  apply matches_lit in H1 as ->. now exists s2.
Qed.

Lemma matches_chr_cat a r s :
  matches (chr a ;; r)%re s ->
  exists t, s = N_of_ascii a :: t /\ matches r t.
Proof.
  intros H. inversion H as [| |? ? s1 s2 H1 H2| | | |]; subst.
  inversion H1 as [|? c E| | | | |]; subst.
  apply N.eqb_eq in E as <-. now exists s2.
Qed.

Lemma matches_eps_cat r s : matches (Eps ;; r)%re s -> matches r s.
Proof.
  intros H. inversion H as [| |? ? s1 s2 H1 H2| | | |]; subst.
  now inversion H1; subst.
Qed.

Lemma matches_opt_cat x r s :
  matches (opt x ;; r)%re s -> matches r s \/ matches (x ;; r)%re s.
Proof.
  intros H. inversion H as [| |? ? s1 s2 H1 H2| | | |]; subst.
  inversion H1 as [| | |? ? ? Hx|? ? ? He| |]; subst.
  - right. now constructor.
  - inversion He; subst. now left.
Qed.

Lemma matches_alt_cat a b r s :
  matches (Alt a b ;; r)%re s ->
  matches (a ;; r)%re s \/ matches (b ;; r)%re s.
Proof.
  intros H. inversion H as [| |? ? s1 s2 H1 H2| | | |]; subst.
  inversion H1; subst; [left | right]; now constructor.
Qed.

Lemma matches_cat_assoc a b r s :
  matches ((a ;; b) ;; r)%re s -> matches (a ;; b ;; r)%re s.
Proof.
  intros H. inversion H as [| |? ? s1 s2 H1 H2| | | |]; subst.
  inversion H1 as [| |? ? s3 s4 H3 H4| | | |]; subst.
  rewrite <- app_assoc. constructor; [assumption|]. now constructor.
Qed.

Lemma matches_alt a b s :
  matches (Alt a b) s -> matches a s \/ matches b s.
Proof. intros H. inversion H; subst; auto. Qed.

(** Reads the literal head of a pattern off a match. *)
Ltac peel H :=
  let t := fresh "t" in
  lazymatch type of H with
  | matches (lit _ ;; _)%re _ =>
      apply matches_lit_cat in H; destruct H as (t & -> & H)
  | matches (chr _ ;; _)%re _ =>
      apply matches_chr_cat in H; destruct H as (t & -> & H)
  | matches (Eps ;; _)%re _ => apply matches_eps_cat in H
  | matches (opt _ ;; _)%re _ =>
      apply matches_opt_cat in H; destruct H as [H|H]
  | matches (Alt _ _ ;; _)%re _ =>
      apply matches_alt_cat in H; destruct H as [H|H]
  | matches ((_ ;; _) ;; _)%re _ => apply matches_cat_assoc in H
  | matches (Alt _ _) _ => apply matches_alt in H; destruct H as [H|H]
  end.

(** Whatever the pattern of the [i]-th platform matches points at the
    [i]-th site. *)
Lemma pattern_site i p s q :
  nth_error SUPPORTED_PLATFORMS i = Some p ->
  matches (pattern p) s -> site_of (s ++ q) = Some i.
Proof.
  intros Hi H.
  do 10 (destruct i as [|i];
         [injection Hi as <-; cbn [pattern] in H;
          repeat peel H; reflexivity|]).
  destruct i; discriminate.
Qed.

End Disjoint.

Section Order.

Lemma isValidUrl_from_cases ps url :
  (isValidUrl_from ps url = unsupported
   /\ forall q, In q ps -> test (pattern q) url = false)
  \/ exists j p,
       nth_error ps j = Some p /\ test (pattern p) url = true
       /\ isValidUrl_from ps url = supported p.
Proof.
  induction ps as [|b ps IH]; simpl.
  - left. split; [reflexivity | contradiction].
  - destruct (test (pattern b) url) eqn:E.
    + right. exists 0%nat, b. auto.
    + destruct IH as [[Hu Hn] | (j & p & Hj & Hp & Hs)].
      * left. split; [assumption|]. intros q [<-|Hq]; auto.
      * right. exists (S j), p. auto.
Qed.

(** A match of the [i]-th pattern anywhere at the head of the input fixes
    the site of the input. *)
Lemma test_site i p url :
  nth_error SUPPORTED_PLATFORMS i = Some p ->
  test (pattern p) url = true -> site_of url = Some i.
Proof.
  intros Hi Ht. apply test_spec in Ht as (s & q & -> & Hm).
  eauto using pattern_site.
Qed.

Lemma matching_platform_unique url p q :
  In p SUPPORTED_PLATFORMS -> In q SUPPORTED_PLATFORMS ->
  test (pattern p) url = true -> test (pattern q) url = true -> p = q.
Proof.
  intros Hp Hq Tp Tq.
  apply In_nth_error in Hp as [i Hi]. apply In_nth_error in Hq as [j Hj].
  pose proof (test_site _ _ _ Hi Tp) as Si.
  pose proof (test_site _ _ _ Hj Tq) as Sj.
  assert (i = j) as -> by congruence. congruence.
Qed.

Lemma isValidUrl_of_match url p :
  In p SUPPORTED_PLATFORMS -> test (pattern p) url = true ->
  isValidUrl url = supported p.
Proof.
  intros Hp Tp. unfold isValidUrl.
  destruct (isValidUrl_from_cases SUPPORTED_PLATFORMS url)
    as [[_ Hn] | (j & p' & Hj & Tp' & ->)].
  - rewrite (Hn p Hp) in Tp. discriminate.
  - apply nth_error_In in Hj.
    now rewrite (matching_platform_unique url p p' Hp Hj Tp Tp').
Qed.

End Order.

(** X1: no input is matched by the patterns of two platforms. *)
Theorem platform_patterns_disjoint (url : jsstring) (p q : PlatformConfig) :
  In p SUPPORTED_PLATFORMS -> In q SUPPORTED_PLATFORMS ->
  test (pattern p) url = true -> test (pattern q) url = true -> p = q.
Proof. apply matching_platform_unique. Qed.

(** X2: the order of the list does not matter: whenever the pattern of a
    configured platform matches, the classifier answers with that
    platform's name and icon. *)
Theorem isValidUrl_returns_matching_platform
    (url : jsstring) (p : PlatformConfig) :
  In p SUPPORTED_PLATFORMS -> test (pattern p) url = true ->
  isValidUrl url
  = {| valid := true; platform := Some (name p); v_icon := Some (icon p) |}.
Proof. apply isValidUrl_of_match. Qed.

(** X3: the patterns are not anchored at the end: an accepted input stays
    accepted, for the same platform, whatever is appended to it. *)
Theorem isValidUrl_ignores_suffix (url rest : jsstring) :
  valid (isValidUrl url) = true ->
  isValidUrl (url ++ rest) = isValidUrl url.
Proof.
  intros Hv. unfold isValidUrl in Hv.
  destruct (isValidUrl_from_cases SUPPORTED_PLATFORMS url)
    as [[Hu _] | (j & p & Hj & Tp & Hs)].
  - rewrite Hu in Hv. discriminate.
  - apply nth_error_In in Hj.
    rewrite (isValidUrl_of_match url p Hj Tp).
    apply isValidUrl_of_match; [assumption|].
    apply test_spec in Tp as (s & q & -> & Hm).
    apply test_spec. exists s, (q ++ rest). now rewrite app_assoc.
Qed.

(** X4: the YouTube expressions are chosen exactly for the inputs that the
    YouTube pattern matches; every other input, accepted or not, gets the
    generic expressions. *)
Theorem youtube_family_iff_youtube_pattern
    (url quality : jsstring) (p : PlatformConfig) :
  In p SUPPORTED_PLATFORMS -> name p = str "YouTube" ->
  getYtDlpFormat quality (platform (isValidUrl url))
  = if test (pattern p) url
    then getYtDlpFormat quality (Some (str "YouTube"))
    else getYtDlpFormat quality None.
Proof.
  intros Hp Hn.
  destruct (test (pattern p) url) eqn:Tp.
  - rewrite (isValidUrl_of_match url p Hp Tp). simpl. now rewrite Hn.
  - unfold isValidUrl.
    destruct (isValidUrl_from_cases SUPPORTED_PLATFORMS url)
      as [[-> _] | (j & p' & Hj & Tp' & ->)]; [reflexivity|].
    assert (includes (name p') (str "YouTube") = false) as E.
    { destruct (includes (name p') (str "YouTube")) eqn:E; [|reflexivity].
      exfalso.
      do 10 (destruct j as [|j];
             [injection Hj as <-; vm_compute in E;
              first [ discriminate E
                    | simpl in Hp;
                      repeat (destruct Hp as [<-|Hp];
                              [first [discriminate Hn | congruence]|]);
                      contradiction ]|]).
      destruct j; discriminate. }
    change (platform (supported p')) with (Some (name p')).
    unfold getYtDlpFormat, includes_opt. now rewrite E.
Qed.

(** ** More on the sanitizer *)

Section SanitizerMore.

Lemma In_firstn_In {A} (x : A) n l : In x (firstn n l) -> In x l.
Proof.
  revert l; induction n as [|n IH]; intros [|y l]; simpl; try tauto.
  intros [E|H]; auto.
Qed.

Lemma In_replace_illegal c s :
  In c (replace_class_g is_illegal (fun _ => str "") s) -> In c s.
Proof.
  rewrite replace_illegal_filter, filter_In. tauto.
Qed.

Lemma In_replace_runs c b s :
  In c (replace_runs_from is_space (str "_") b s) -> c = 95 \/ In c s.
Proof.
  revert b; induction s as [|x s IH]; intros b; cbn [replace_runs_from].
  - contradiction.
  - destruct (is_space x).
    + destruct b.
      * intros H. destruct (IH _ H); simpl; auto.
      * intros [E|H]; [now left|]. destruct (IH _ H); simpl; auto.
    + intros [E|H]; [right; now left|]. destruct (IH _ H); simpl; auto.
Qed.

Lemma In_replace_non_ascii c s :
  In c (replace_class_g non_ascii ascii_or_underscore s) ->
  c = 95 \/ In c s.
Proof.
  induction s as [|x s IH]; [contradiction|].
  rewrite replace_class_g_cons, in_app_iff. intros [H|H].
  - unfold ascii_or_underscore in H.
    destruct (non_ascii x), (x <? 128); simpl in H;
      destruct H as [<-|[]]; simpl; auto.
  - destruct (IH H); simpl; auto.
Qed.

Lemma length_replace_illegal s :
  (List.length (replace_class_g is_illegal (fun _ => str "") s)
   <= List.length s)%nat.
Proof. rewrite replace_illegal_filter. apply filter_length_le. Qed.

Lemma length_replace_runs b s :
  (List.length (replace_runs_from is_space (str "_") b s)
   <= List.length s)%nat.
Proof.
  revert b; induction s as [|x s IH]; intros b; cbn [replace_runs_from];
    [reflexivity|].
  destruct (is_space x); [destruct b|].
  - specialize (IH true). simpl in *. lia.
  - specialize (IH true). simpl in *. lia.
  - specialize (IH false). simpl in *. lia.
Qed.

Lemma length_replace_non_ascii s :
  List.length (replace_class_g non_ascii ascii_or_underscore s)
  = List.length s.
Proof.
  induction s as [|x s IH]; [reflexivity|].
  rewrite replace_class_g_cons, length_app, IH.
  unfold ascii_or_underscore. now destruct (non_ascii x), (x <? 128).
Qed.

End SanitizerMore.

(** X5: the sanitizer only deletes, or writes underscores: its output is
    never longer than its input, and each code unit of the output is an
    ASCII, non-blank code unit that is an underscore or occurs in the
    input. *)
Theorem sanitizeFilename_only_removes_or_underscores (s : jsstring) :
  (List.length (sanitizeFilename s) <= List.length s)%nat
  /\ forall c, In c (sanitizeFilename s) ->
       c <= 127 /\ is_space c = false /\ (c = 95 \/ In c s).
Proof.
  split.
  - unfold sanitizeFilename, substring0, replace_runs_g.
    rewrite length_firstn, length_replace_non_ascii.
    pose proof (length_replace_runs false
                  (replace_class_g is_illegal (fun _ => str "") s)).
    pose proof (length_replace_illegal s). lia.
  - intros c Hc.
    pose proof (sanitizeFilename_tidy s) as Ht.
    rewrite forallb_forall in Ht. specialize (Ht c Hc). unfold tidy in Ht.
    apply andb_true_iff in Ht as [Ht Ha].
    apply andb_true_iff in Ht as [_ Hs].
    apply N.leb_le in Ha. apply negb_true_iff in Hs.
    repeat split; try assumption.
    unfold sanitizeFilename, substring0, replace_runs_g in Hc.
    apply In_firstn_In, In_replace_non_ascii in Hc.
    destruct Hc as [Hc|Hc]; [now left|].
    apply In_replace_runs in Hc. destruct Hc as [Hc|Hc]; [now left|].
    right. now apply In_replace_illegal.
Qed.

(** X6: the names the sanitizer leaves alone are exactly the names of at
    most 100 code units, all of them ASCII, none blank, none among the
    nine removed characters. *)
Theorem sanitizeFilename_fixed_points (s : jsstring) :
  sanitizeFilename s = s
  <-> (forallb tidy s = true /\ (List.length s <= 100)%nat).
Proof.
  split.
  - intros E. rewrite <- E.
    split; [apply sanitizeFilename_tidy | apply sanitizeFilename_length].
  - intros [Ht Hl]. now apply sanitizeFilename_fixpoint.
Qed.

(** ** The quality parameter *)

Section Quality.

Lemma untiered_not_audio q : ~ In q tiers -> eqb q (str "audio") = false.
Proof.
  intros H. destruct (eqb q (str "audio")) eqn:E; [|reflexivity].
  apply eqb_eq in E. exfalso. apply H. rewrite E. simpl. tauto.
Qed.

Lemma untiered_format q pl :
  ~ In q tiers -> getYtDlpFormat q pl = getYtDlpFormat (str "best") pl.
Proof.
  intros H. rewrite getYtDlpFormat_best. unfold getYtDlpFormat.
  destruct (includes_opt pl (str "YouTube"));
    repeat match goal with
           | |- context [eqb q (str ?l)] =>
               let E := fresh "E" in
               destruct (eqb q (str l)) eqn:E;
               [apply eqb_eq in E; exfalso; apply H; rewrite E; simpl; tauto|]
           end; reflexivity.
Qed.

Lemma resume_untiered st u q v raw yt ff :
  ~ In q tiers ->
  resume st u q v raw yt ff = resume st u (str "best") v raw yt ff.
Proof.
  intros H. unfold resume, getFileExtension.
  rewrite (untiered_format q _ H), (untiered_not_audio q H).
  reflexivity.
Qed.

Lemma resume_settled st u q v raw yt ff :
  exists r, phase (resume st u q v raw yt ff) = Settled r.
Proof.
  unfold resume.
  destruct yt; [destruct ff; [destruct (encodeURIComponent _)|]|];
    eexists; reflexivity.
Qed.

Lemma forget_quality_settled st r :
  phase st = Settled r -> forget_quality st = st.
Proof. destruct st; simpl. now intros ->. Qed.

Lemma step_untiered st ev st' :
  untiered st -> step st ev = Some st' -> untiered st'.
Proof.
  intros Hu. destruct ev; simpl.
  - destruct (aborted st); [discriminate|]. intros E. now injection E as <-.
  - destruct (titleTimeout st); [|discriminate].
    intros E. now injection E as <-.
  - destruct (phase st); [|discriminate]. intros E. injection E as <-.
    intros u' q' v' Hp.
    destruct (resume_settled st url quality validation raw yt ff) as [r Hr].
    congruence.
  - destruct (relaying st); [|discriminate]. intros E. now injection E as <-.
  - destruct (relaying st); [|discriminate]. intros E. now injection E as <-.
  - destruct (relaying st); [|discriminate]. intros E. now injection E as <-.
Qed.

Lemma step_forget_quality s1 s2 ev :
  untiered s1 -> untiered s2 -> forget_quality s1 = forget_quality s2 ->
  option_map forget_quality (step s1 ev)
  = option_map forget_quality (step s2 ev).
Proof.
  intros U1 U2 E.
  destruct s1 as [p1 t1 o1 y1 f1 r1 l1 a1], s2 as [p2 t2 o2 y2 f2 r2 l2 a2].
  unfold forget_quality in E. simpl in E.
  injection E as Ep <- <- <- <- <- <- <-.
  destruct ev; simpl.
  - destruct a1; [reflexivity|]. unfold forget_quality. simpl. now rewrite Ep.
  - destruct o1; [|reflexivity]. unfold forget_quality. simpl. now rewrite Ep.
  - destruct p1 as [u1 q1 v1|r1'], p2 as [u2 q2 v2|r2'];
      try discriminate; [|reflexivity].
    injection Ep as <- <-. simpl.
    rewrite (resume_untiered _ u1 q1), (resume_untiered _ u1 q2).
    + reflexivity.
    + exact (U2 _ _ _ eq_refl).
    + exact (U1 _ _ _ eq_refl).
  - destruct r1; [|reflexivity]. simpl. unfold forget_quality. simpl.
    now rewrite Ep.
  - destruct r1; [|reflexivity]. unfold forget_quality. simpl. now rewrite Ep.
  - destruct r1; [|reflexivity]. unfold forget_quality. simpl. now rewrite Ep.
Qed.

Lemma run_forget_quality evs : forall s1 s2,
  untiered s1 -> untiered s2 -> forget_quality s1 = forget_quality s2 ->
  option_map forget_quality (run s1 evs)
  = option_map forget_quality (run s2 evs).
Proof.
  induction evs as [|ev evs IH]; simpl; intros s1 s2 U1 U2 E.
  - now rewrite E.
  - pose proof (step_forget_quality s1 s2 ev U1 U2 E) as Hs.
    destruct (step s1 ev) as [s1'|] eqn:S1, (step s2 ev) as [s2'|] eqn:S2;
      simpl in Hs; try discriminate; [|reflexivity].
    assert (forget_quality s1' = forget_quality s2') as Hs' by congruence.
    apply IH; [exact (step_untiered _ _ _ U1 S1)
              | exact (step_untiered _ _ _ U2 S2) | exact Hs'].
Qed.

End Quality.

(** X7: a quality that is missing, empty or none of audio, 720, 1080, 4k,
    2160 is served as best: under every sequence of events the request has
    the state of the request for the same url with quality best, except
    for the quality string kept while the title is awaited; the children,
    their command lines and the answer are the same. *)
Theorem unlisted_quality_served_as_best
    (req : Request) (probe : SpawnOutcome) (u : jsstring)
    (evs : list Event) :
  request_url req = Some u ->
  ~ In (request_quality req) tiers ->
  option_map forget_quality (run (streamVideo req probe) evs)
  = option_map forget_quality
      (run (streamVideo
              {| pathname := pathname req;
                 searchParams := [(str "url", u); (str "quality", str "best")] |}
              probe) evs).
Proof.
  intros Hu Hq. unfold request_url in Hu. unfold request_quality in Hq.
  apply run_forget_quality.
  - unfold streamVideo. rewrite Hu.
    destruct u as [|c u]; [discriminate|].
    destruct (valid (isValidUrl (c :: u))); [destruct probe|];
      intros u' q' v' E; try discriminate.
    simpl in E. now injection E as _ <- _.
  - unfold streamVideo. simpl.
    destruct u as [|c u]; [discriminate|].
    destruct (valid (isValidUrl (c :: u))); [destruct probe|];
      intros u' q' v' E; try discriminate.
    simpl in E. injection E as _ <- _.
    simpl. intros H. repeat (destruct H as [H|H]; [discriminate|]). exact H.
  - unfold streamVideo. rewrite Hu. simpl.
    destruct u as [|c u]; [reflexivity|].
    destruct (valid (isValidUrl (c :: u))); [destruct probe|]; reflexivity.
Qed.

(** ** The answer *)

Section Answer.

Lemma title_fallback raw :
  match raw with Some t => trim t = [] | None => True end ->
  probedTitle raw = probedTitle (Some (str "video")).
Proof. destruct raw as [t|]; simpl; [intros ->|]; reflexivity. Qed.

(** Every answer of a run is an answer of the first stretch or of
    [resume]. *)
Lemma step_answer (P : Response -> Prop) st ev st' :
  (forall st0 u q v raw yt ff r,
      phase (resume st0 u q v raw yt ff) = Settled r -> P r) ->
  (forall r, phase st = Settled r -> P r) ->
  step st ev = Some st' -> forall r, phase st' = Settled r -> P r.
Proof.
  intros Hres Hst. destruct ev; simpl.
  - destruct (aborted st); [discriminate|]. intros E. now injection E as <-.
  - destruct (titleTimeout st); [|discriminate].
    intros E. now injection E as <-.
  - destruct (phase st); [|discriminate]. intros E. injection E as <-.
    apply Hres.
  - destruct (relaying st); [|discriminate]. intros E. now injection E as <-.
  - destruct (relaying st); [|discriminate]. intros E. now injection E as <-.
  - destruct (relaying st); [|discriminate]. intros E. now injection E as <-.
Qed.

Lemma run_answer (P : Response -> Prop) evs : forall st st',
  (forall st0 u q v raw yt ff r,
      phase (resume st0 u q v raw yt ff) = Settled r -> P r) ->
  (forall r, phase st = Settled r -> P r) ->
  run st evs = Some st' -> forall r, phase st' = Settled r -> P r.
Proof.
  induction evs as [|ev evs IH]; simpl; intros st st' Hres Hst E.
  - now injection E as <-.
  - destruct (step st ev) as [st1|] eqn:S; [|discriminate].
    apply (IH st1 st' Hres); [|assumption].
    exact (step_answer P st ev st1 Hres Hst S).
Qed.

Lemma unreserved_printable c : uri_unreserved c = true -> printable c = true.
Proof.
  unfold uri_unreserved, is_word, is_digit, printable. simpl.
  rewrite !orb_true_iff, !andb_true_iff, !N.leb_le, !N.eqb_eq.
  intuition (lia || discriminate).
Qed.

Lemma hex_digit_printable n : n < 16 -> printable (hex_digit n) = true.
Proof.
  intros H. unfold hex_digit, printable.
  destruct (n <? 10) eqn:E; apply andb_true_iff; rewrite !N.leb_le;
    [apply N.ltb_lt in E | apply N.ltb_ge in E]; lia.
Qed.

Lemma percent_printable c : c <= 127 -> forallb printable (percent c) = true.
Proof.
  intros H. unfold percent. cbn [forallb].
  rewrite !hex_digit_printable; [reflexivity| |].
  - apply N.mod_lt. discriminate.
  - apply N.Div0.div_lt_upper_bound. lia.
Qed.

Lemma encodeURIComponent_ascii_cons c t :
  c <= 127 ->
  encodeURIComponent (c :: t)
  = option_map (app (if uri_unreserved c then [c] else percent c))
      (encodeURIComponent t).
Proof.
  intros H. cbn [encodeURIComponent].
  destruct (uri_unreserved c); [reflexivity|].
  unfold is_trail, is_lead, utf8.
  destruct (56320 <=? c) eqn:E1; [apply N.leb_le in E1; lia|].
  destruct (55296 <=? c) eqn:E2; [apply N.leb_le in E2; lia|].
  destruct (c <? 128) eqn:E3; [|apply N.ltb_ge in E3; lia].
  reflexivity.
Qed.

Lemma encodeURIComponent_ascii_shape s : forall e,
  forallb (fun c => c <=? 127) s = true ->
  encodeURIComponent s = Some e ->
  forallb printable e = true /\ (List.length e <= 3 * List.length s)%nat.
Proof.
  induction s as [|c s IH]; intros e Ha He.
  - injection He as <-. split; [reflexivity | simpl; lia].
  - simpl in Ha. apply andb_true_iff in Ha as [Hc Hs].
    apply N.leb_le in Hc.
    rewrite (encodeURIComponent_ascii_cons c s Hc) in He.
    destruct (encodeURIComponent s) as [e'|]; [|discriminate].
    injection He as <-. destruct (IH e' Hs eq_refl) as [Hp Hl].
    rewrite forallb_app, length_app, Hp, andb_true_r.
    destruct (uri_unreserved c) eqn:U.
    + split; [simpl; now rewrite unreserved_printable | simpl; lia].
    + split; [now apply percent_printable | simpl; lia].
Qed.

Lemma filename_ascii title quality :
  forallb (fun c => c <=? 127)
    (sanitizeFilename title ++ str "." ++ getFileExtension quality) = true.
Proof.
  rewrite !forallb_app, (tidy_ascii _ (sanitizeFilename_tidy _)).
  unfold getFileExtension. now destruct (eqb quality (str "audio")).
Qed.

Lemma filename_length title quality :
  (List.length
     (sanitizeFilename title ++ str "." ++ getFileExtension quality)
   <= 104)%nat.
Proof.
  rewrite !length_app. pose proof (sanitizeFilename_length title).
  unfold getFileExtension. destruct (eqb quality (str "audio")); simpl; lia.
Qed.

Lemma error500_headers_ok e : headers_ok (error500 e).
Proof.
  intros k v [E|[]]. injection E as <- <-. repeat split. simpl. lia.
Qed.

Lemma resume_headers_ok st u q v raw yt ff r :
  phase (resume st u q v raw yt ff) = Settled r -> headers_ok r.
Proof.
  pose proof (filename_ascii (probedTitle raw) q) as Ha.
  pose proof (filename_length (probedTitle raw) q) as Hf.
  unfold resume. cbv zeta. unfold getFileExtension in *.
  destruct yt as [|e]; [destruct ff as [|e]|];
    try (cbn [phase]; intros E; injection E as <-;
         apply error500_headers_ok).
  destruct (eqb q (str "audio"));
    (destruct (encodeURIComponent _) as [enc|] eqn:En; cbn [phase];
     [|intros E; injection E as <-; apply error500_headers_ok];
     destruct (encodeURIComponent_ascii_shape _ enc Ha En) as [Hp Hl];
     intros E; injection E as <-; intros k v' Hin; cbn [headers In] in Hin;
     destruct Hin as [E|[E|[E|[E|[]]]]]; injection E as <- <-;
     rewrite ?forallb_app, ?length_app, ?Hp;
     rewrite ?length_app in Hf, Hl; simpl in *; repeat split;
     first [assumption | lia]).
Qed.

Lemma streamVideo_headers_ok req probe r :
  phase (streamVideo req probe) = Settled r -> headers_ok r.
Proof.
  unfold streamVideo.
  destruct (searchParams_get (searchParams req) (str "url")) as [[|c u]|];
    [| destruct (valid (isValidUrl (c :: u))); [destruct probe as [|e]|] |];
    simpl; intros E; try discriminate; injection E as <-;
    try apply error500_headers_ok;
    intros k v [E|[]]; injection E as <- <-; repeat split; simpl; lia.
Qed.

Lemma resume_status st u q v raw yt ff r :
  phase (resume st u q v raw yt ff) = Settled r ->
  status r = 200 \/ status r = 500.
Proof.
  unfold resume.
  destruct yt; [destruct ff; [destruct (encodeURIComponent _)|]|];
    simpl; intros E; injection E as <-; auto.
Qed.

End Answer.

(** X8: reading the title is best effort.  Whatever the probe printed, and
    also when reading it failed, the request is answered 200 with the
    transcoder's output once both children start; a failed or blank probe
    is served exactly like a probe that printed the default title. *)
Theorem title_probe_is_best_effort
    (st : Lifecycle) (u q : jsstring) (v : Validation)
    (raw : option jsstring) :
  phase st = AwaitingTitle u q v ->
  (exists st' r,
      step st (TitleSettled raw Started Started) = Some st'
      /\ phase st' = Settled r /\ status r = 200
      /\ body r = StdoutOf (ffmpegCmd (eqb q (str "audio"))))
  /\ (match raw with Some t => trim t = [] | None => True end ->
      forall yt ff,
        step st (TitleSettled raw yt ff)
        = step st (TitleSettled (Some (str "video")) yt ff)).
Proof.
  intros Hp. split.
  - destruct (resume_started_answers_200 st u q v raw) as (r & H1 & H2 & H3).
    exists (resume st u q v raw Started Started), r.
    simpl. rewrite Hp. auto.
  - intros Hraw yt ff. simpl. rewrite Hp. f_equal.
    unfold resume. now rewrite (title_fallback raw Hraw).
Qed.

(** X9: whatever the title and the query are, every answer of a request
    has status 200, 400 or 500, and its header names and values are made
    of visible ASCII characters and spaces only, each value at most 363
    code units long: no line break of a title can reach a header. *)
Theorem answer_headers_are_safe
    (req : Request) (probe : SpawnOutcome) (evs : list Event)
    (st : Lifecycle) (r : Response) :
  run (streamVideo req probe) evs = Some st ->
  phase st = Settled r ->
  In (status r) [200; 400; 500]
  /\ forall k v, In (k, v) (headers r) ->
       forallb printable k = true /\ forallb printable v = true
       /\ (List.length v <= 363)%nat.
Proof.
  intros Hrun Hp. split.
  - apply (run_answer (fun r => In (status r) [200; 400; 500]) evs
             (streamVideo req probe) st); try assumption.
    + intros st0 u q v raw yt ff r0 E.
      destruct (resume_status _ _ _ _ _ _ _ _ E) as [-> | ->]; simpl; auto.
    + intros r0. unfold streamVideo.
      destruct (searchParams_get (searchParams req) (str "url"))
        as [[|c u]|];
        [| destruct (valid (isValidUrl (c :: u))); [destruct probe|] |];
        simpl; intros E; try discriminate; injection E as <-; simpl; auto.
  - apply (run_answer headers_ok evs (streamVideo req probe) st);
      try assumption.
    + intros st0 u q v raw yt ff r0. apply resume_headers_ok.
    + intros r0. apply streamVideo_headers_ok.
Qed.

(** ** The children of a request *)

Section Children.

Lemma kill_some c c' :
  option_map kill c = Some c' -> exists c0, c = Some c0 /\ cmd c' = cmd c0.
Proof. destruct c as [c0|]; [|discriminate]. intros E. injection E as <-. eauto. Qed.

Lemma end_stdin_some c c' :
  option_map end_stdin c = Some c' ->
  exists c0, c = Some c0 /\ cmd c' = cmd c0.
Proof. destruct c as [c0|]; [|discriminate]. intros E. injection E as <-. eauto. Qed.

Lemma valid_has_scheme u :
  valid (isValidUrl u) = true ->
  startsWith u (str "http://") = true \/ startsWith u (str "https://") = true.
Proof.
  unfold isValidUrl.
  destruct (isValidUrl_from_cases SUPPORTED_PLATFORMS u)
    as [[-> _] | (j & p & Hj & Tp & _)]; [discriminate|].
  intros _. apply nth_error_In in Hj.
  pose proof all_patterns_anchored_to_scheme as Hall.
  rewrite Forall_forall in Hall. destruct (Hall p Hj) as [rest E].
  apply test_spec in Tp as (s & q & -> & Hm). rewrite E in Hm.
  exact (scheme_prefix rest s q Hm).
Qed.

Lemma streamVideo_commands_ok req probe :
  commands_ok req (streamVideo req probe).
Proof.
  unfold commands_ok, request_url, request_quality, streamVideo.
  destruct (searchParams_get (searchParams req) (str "url")) as [[|c u]|];
    [| destruct (valid (isValidUrl (c :: u))) eqn:V; [destruct probe|] |];
    simpl; repeat split; try discriminate;
    try (intros ? ? ? E; discriminate E);
    try solve [ intros c0 E; injection E as <-; eauto
              | intros u0 q0 v0 E; injection E as <- <- <-; auto
              | intros u0 q0 v0 E; now injection E ].
  all: match goal with
       | E : AwaitingTitle _ _ _ = AwaitingTitle _ _ _ |- _ =>
           injection E as <- <- <-; auto
       end.
Qed.

Lemma resume_commands_ok req st u q v raw yt ff :
  commands_ok req st -> phase st = AwaitingTitle u q v ->
  commands_ok req (resume st u q v raw yt ff).
Proof.
  intros (Ht & Hy & Hf & Hp) P.
  destruct (Hp u q v P) as (Hu & -> & -> & Hv).
  unfold resume. cbv zeta.
  destruct yt; [destruct ff; [destruct (encodeURIComponent _)|]|];
    (split; [exact Ht|]); simpl;
    repeat split; try discriminate;
    try (intros ? ? ? E; discriminate E);
    intros c0 E; injection E as <-; eauto.
Qed.

Lemma step_commands_ok req st ev st' :
  commands_ok req st -> step st ev = Some st' -> commands_ok req st'.
Proof.
  intros C H. pose proof C as (Ht & Hy & Hf & Hp).
  step_inv H st ev; try (now apply resume_commands_ok);
    (split; [|split; [|split]]); simpl; try assumption;
    intros c0 E;
    repeat match type of E with
           | (if ?b then _ else _) = _ => destruct b
           | option_map kill _ = Some _ =>
               let c1 := fresh "c" in
               apply kill_some in E; destruct E as (c1 & E & ->)
           | option_map end_stdin _ = Some _ =>
               let c1 := fresh "c" in
               apply end_stdin_some in E; destruct E as (c1 & E & ->)
           end; auto.
Qed.

Lemma run_commands_ok req evs : forall st st',
  commands_ok req st -> run st evs = Some st' -> commands_ok req st'.
Proof.
  induction evs as [|ev evs IH]; simpl; intros st st' C E.
  - now injection E as <-.
  - destruct (step st ev) as [st1|] eqn:S; [|discriminate].
    eauto using step_commands_ok.
Qed.

Lemma streamVideo_alive req probe :
  is_killed (titleProc (streamVideo req probe)) = false
  /\ is_killed (ytdlp (streamVideo req probe)) = false
  /\ is_killed (ffmpeg (streamVideo req probe)) = false.
Proof.
  unfold streamVideo.
  destruct (searchParams_get (searchParams req) (str "url")) as [[|c u]|];
    [| destruct (valid (isValidUrl (c :: u))); [destruct probe|] |];
    repeat split.
Qed.

Lemma resume_children st u q v raw yt ff :
  is_killed (ytdlp (resume st u q v raw yt ff)) = false
  /\ is_killed (ffmpeg (resume st u q v raw yt ff)) = false
  /\ titleProc (resume st u q v raw yt ff) = titleProc st
  /\ aborted (resume st u q v raw yt ff) = aborted st
  /\ titleTimeout (resume st u q v raw yt ff) = false.
Proof.
  unfold resume.
  destruct yt; [destruct ff; [destruct (encodeURIComponent _)|]|];
    repeat split.
Qed.

Lemma step_children_alive st ev st' :
  ev <> Abort -> ev <> RelayFailed -> step st ev = Some st' ->
  is_killed (ytdlp st) = false /\ is_killed (ffmpeg st) = false ->
  is_killed (ytdlp st') = false /\ is_killed (ffmpeg st') = false.
Proof.
  intros N1 N2 H [Ky Kf].
  step_inv H st ev; try congruence; simpl; auto.
  - destruct (resume_children st url quality validation raw yt ff)
      as (? & ? & _). auto.
  - now rewrite is_killed_end_stdin.
Qed.

Lemma step_probe_alive st ev st' :
  ev <> TitleTimeout -> step st ev = Some st' ->
  is_killed (titleProc st) = false -> is_killed (titleProc st') = false.
Proof.
  intros N1 H K.
  step_inv H st ev; try congruence; simpl; auto.
  destruct (resume_children st url quality validation raw yt ff)
    as (_ & _ & -> & _). assumption.
Qed.

Lemma run_children_alive evs : forall st st',
  ~ In Abort evs -> ~ In RelayFailed evs -> run st evs = Some st' ->
  is_killed (ytdlp st) = false /\ is_killed (ffmpeg st) = false ->
  is_killed (ytdlp st') = false /\ is_killed (ffmpeg st') = false.
Proof.
  induction evs as [|ev evs IH]; simpl; intros st st' N1 N2 E K.
  - now injection E as <-.
  - destruct (step st ev) as [st1|] eqn:S; [|discriminate].
    apply (IH st1); try tauto.
    apply (step_children_alive st ev); auto; intros ->; tauto.
Qed.

Lemma run_probe_alive evs : forall st st',
  ~ In TitleTimeout evs -> run st evs = Some st' ->
  is_killed (titleProc st) = false -> is_killed (titleProc st') = false.
Proof.
  induction evs as [|ev evs IH]; simpl; intros st st' N1 E K.
  - now injection E as <-.
  - destruct (step st ev) as [st1|] eqn:S; [|discriminate].
    apply (IH st1); try tauto.
    apply (step_probe_alive st ev); auto; intros ->; tauto.
Qed.

End Children.

(** X10: what a request passes to the programs it starts.  The title probe
    and the downloader are called with the url of the query as their last
    argument, and only for a url the classifier accepts, which therefore
    starts with the http or https scheme; the format expression is the one
    chosen for the quality and the platform of the query; the transcoder
    gets one of the two fixed command lines.  Nothing else of the query
    reaches a command line. *)
Theorem children_command_lines
    (req : Request) (probe : SpawnOutcome) (evs : list Event)
    (st : Lifecycle) :
  run (streamVideo req probe) evs = Some st ->
  (forall c, titleProc st = Some c ->
     exists u,
       request_url req = Some u /\ valid (isValidUrl u) = true
       /\ (startsWith u (str "http://") = true
           \/ startsWith u (str "https://") = true)
       /\ cmd c = [str "yt-dlp"; str "--print"; str "title"; u])
  /\ (forall c, ytdlp st = Some c ->
     exists u,
       request_url req = Some u /\ valid (isValidUrl u) = true
       /\ (startsWith u (str "http://") = true
           \/ startsWith u (str "https://") = true)
       /\ cmd c
          = [str "yt-dlp"; str "-f";
             getYtDlpFormat (request_quality req) (platform (isValidUrl u));
             str "-o"; str "-"; u])
  /\ (forall c, ffmpeg st = Some c ->
       cmd c = ffmpegCmd (eqb (request_quality req) (str "audio"))).
Proof.
  intros Hrun.
  destruct (run_commands_ok req evs _ _ (streamVideo_commands_ok req probe)
              Hrun) as (Ht & Hy & Hf & _).
  split; [|split; [|exact Hf]].
  - intros c Hc. destruct (Ht c Hc) as (u & Hu & Hv & Hcmd).
    exists u. auto using valid_has_scheme.
  - intros c Hc. destruct (Hy c Hc) as (u & Hu & Hv & Hcmd).
    exists u. auto using valid_has_scheme.
Qed.

(** X11: who stops a child.  The downloader and the transcoder are killed
    by an abort or by a failure of the relay only: the title timer never
    touches them, and there is no timer of their own.  The title probe is
    killed by its timer only: an abort leaves it running. *)
Theorem children_are_killed_only_by
    (req : Request) (probe : SpawnOutcome) (evs : list Event)
    (st : Lifecycle) :
  run (streamVideo req probe) evs = Some st ->
  (~ In Abort evs -> ~ In RelayFailed evs ->
   is_killed (ytdlp st) = false /\ is_killed (ffmpeg st) = false)
  /\ (~ In TitleTimeout evs -> is_killed (titleProc st) = false).
Proof.
  intros Hrun. destruct (streamVideo_alive req probe) as (Kt & Ky & Kf).
  split.
  - intros N1 N2. now apply (run_children_alive evs (streamVideo req probe)).
  - intros N. now apply (run_probe_alive evs (streamVideo req probe)).
Qed.

(** ** Lost aborts, orphans and the end of the relay *)

Section Leaks.

Lemma run_app evs1 : forall st evs2,
  run st (evs1 ++ evs2)
  = match run st evs1 with
    | Some st1 => run st1 evs2
    | None => None
    end.
Proof.
  induction evs1 as [|ev evs1 IH]; simpl; intros st evs2; [reflexivity|].
  destruct (step st ev); [apply IH | reflexivity].
Qed.

Lemma step_aborted st ev st' :
  step st ev = Some st' -> ev = Abort \/ aborted st = true ->
  aborted st' = true.
Proof.
  intros H Ha.
  step_inv H st ev; simpl; try (destruct Ha; congruence); try reflexivity.
  destruct (resume_children st url quality validation raw yt ff)
    as (_ & _ & _ & -> & _).
  destruct Ha; congruence.
Qed.

Lemma run_aborted evs : forall st st',
  run st evs = Some st' -> In Abort evs \/ aborted st = true ->
  aborted st' = true.
Proof.
  induction evs as [|ev evs IH]; simpl; intros st st' E Ha.
  - injection E as <-. destruct Ha; [contradiction | assumption].
  - destruct (step st ev) as [st1|] eqn:S; [|discriminate].
    apply (IH st1 st' E).
    destruct Ha as [[->|Ha]|Ha]; eauto using step_aborted.
Qed.

Lemma running_unkilled_end_stdin c :
  running_unkilled (option_map end_stdin c) = running_unkilled c.
Proof. now destruct c. Qed.

Lemma step_deaf st ev st' :
  deaf st -> ev <> RelayFailed -> step st ev = Some st' ->
  deaf st' /\ ev <> Abort.
Proof.
  intros (Ha & Ky & Kf & r & Hp) N H.
  step_inv H st ev; try congruence;
    (split; [|discriminate]); repeat split; simpl; eauto.
  now rewrite running_unkilled_end_stdin.
Qed.

Lemma run_deaf evs : forall st st',
  deaf st -> ~ In RelayFailed evs -> run st evs = Some st' ->
  deaf st' /\ ~ In Abort evs.
Proof.
  induction evs as [|ev evs IH]; simpl; intros st st' D N E.
  - injection E as <-. tauto.
  - destruct (step st ev) as [st1|] eqn:S; [|discriminate].
    destruct (step_deaf st ev st1 D) as [D1 Na]; auto.
    destruct (IH st1 st' D1) as [D' Na']; auto.
    split; [assumption|]. intros [E'|I]; [congruence | contradiction].
Qed.

Lemma step_orphaned e st ev st' :
  orphaned e st -> step st ev = Some st' -> orphaned e st'.
Proof.
  intros (Hp & Ky & Hf & Hl & Hr & Ht) H.
  step_inv H st ev; try congruence.
  rewrite Hl. repeat split; assumption.
Qed.

Lemma run_orphaned e evs : forall st st',
  orphaned e st -> run st evs = Some st' -> orphaned e st'.
Proof.
  induction evs as [|ev evs IH]; simpl; intros st st' O E.
  - now injection E as <-.
  - destruct (step st ev) as [st1|] eqn:S; [|discriminate].
    eauto using step_orphaned.
Qed.

Lemma streamVideo_piped req probe : piped (streamVideo req probe).
Proof.
  unfold piped, streamVideo.
  destruct (searchParams_get (searchParams req) (str "url")) as [[|c u]|];
    [| destruct (valid (isValidUrl (c :: u))); [destruct probe|] |];
    simpl; discriminate.
Qed.

Lemma resume_piped st u q v raw yt ff : piped (resume st u q v raw yt ff).
Proof.
  unfold piped, resume.
  destruct yt; [destruct ff; [destruct (encodeURIComponent _)|]|];
    simpl; try discriminate; intros _;
    (repeat split; [discriminate | discriminate | eexists; reflexivity]).
Qed.

Lemma step_piped st ev st' : piped st -> step st ev = Some st' -> piped st'.
Proof.
  intros P H.
  step_inv H st ev; try apply resume_piped; unfold piped in *; simpl;
    try discriminate; intros R; destruct (P R) as (Hy & Hf & Hr);
    (repeat split; [| |assumption]);
    try assumption; destruct (abortListener st);
    try assumption; now destruct (ytdlp st), (ffmpeg st).
Qed.

Lemma run_piped evs : forall st st',
  piped st -> run st evs = Some st' -> piped st'.
Proof.
  induction evs as [|ev evs IH]; simpl; intros st st' P E.
  - now injection E as <-.
  - destruct (step st ev) as [st1|] eqn:S; [|discriminate].
    eauto using step_piped.
Qed.

Lemma step_relay_over st ev st' :
  relaying st = false -> (exists r, phase st = Settled r) ->
  step st ev = Some st' ->
  relaying st' = false /\ exists r, phase st' = Settled r.
Proof.
  intros R [r Hp] H. step_inv H st ev; try congruence; simpl; eauto.
Qed.

Lemma run_relay_over evs : forall st st',
  relaying st = false -> (exists r, phase st = Settled r) ->
  run st evs = Some st' -> relaying st' = false.
Proof.
  induction evs as [|ev evs IH]; simpl; intros st st' R Hp E.
  - now injection E as <-.
  - destruct (step st ev) as [st1|] eqn:S; [|discriminate].
    destruct (step_relay_over st ev st1 R Hp S) as [R1 Hp1]. eauto.
Qed.

End Leaks.

(** X12: an abort that comes before the children are spawned is lost.  If
    the client disconnects while the title is awaited, the downloader and
    the transcoder are spawned all the same, the handler registered
    afterwards is never called, the signal cannot fire again, and short of
    a failure of the relay both children stay un-killed. *)
Theorem early_abort_is_lost
    (s s0 s1 st : Lifecycle) (pre post : list Event)
    (raw : option jsstring) :
  run s pre = Some s0 -> In Abort pre ->
  step s0 (TitleSettled raw Started Started) = Some s1 ->
  run s1 post = Some st -> ~ In RelayFailed post ->
  running_unkilled (ytdlp st) = true /\ running_unkilled (ffmpeg st) = true
  /\ ~ In Abort post.
Proof.
  intros Hpre Hin Hstep Hpost Hn.
  assert (aborted s0 = true) as Ha by eauto using run_aborted.
  assert (deaf s1) as D.
  { cbn [step] in Hstep. destruct (phase s0) as [u q v|]; [|discriminate].
    assert (s1 = resume s0 u q v raw Started Started) as ->
      by congruence.
    destruct (resume_children s0 u q v raw Started Started)
      as (_ & _ & _ & Hab & _).
    destruct (resume_settled s0 u q v raw Started Started) as [r Hr].
    repeat split; [congruence | | | eauto];
      unfold resume; now destruct (encodeURIComponent _). }
  destruct (run_deaf post s1 st D Hn Hpost) as [(_ & Ky & Kf & _) Na].
  auto.
Qed.

(** X13: when the transcoder cannot be started, the request is answered
    500 and the downloader, already running, is left behind: no handler
    and no relay is there to stop it, whatever happens next. *)
Theorem transcoder_failure_orphans_downloader
    (s0 s1 st : Lifecycle) (raw : option jsstring) (e : Thrown)
    (post : list Event) :
  step s0 (TitleSettled raw Started (Throws e)) = Some s1 ->
  run s1 post = Some st ->
  phase st = Settled (error500 e) /\ running_unkilled (ytdlp st) = true
  /\ ffmpeg st = None.
Proof.
  intros Hstep Hpost.
  assert (orphaned e s1) as O.
  { simpl in Hstep. destruct (phase s0) as [u q v|]; [|discriminate].
    injection Hstep as <-. repeat split. }
  destruct (run_orphaned e post s1 st O Hpost) as (Hp & Ky & Hf & _).
  auto.
Qed.

(** X14: how the relay ends.  A failure of the relay kills both children,
    for good; its completion closes the input of the transcoder and kills
    nobody.  Either way the relay does not run again. *)
Theorem relay_end
    (req : Request) (probe : SpawnOutcome) (pre : list Event)
    (s0 : Lifecycle) :
  run (streamVideo req probe) pre = Some s0 ->
  (forall s1 post st,
      step s0 RelayFailed = Some s1 -> run s1 post = Some st ->
      is_killed (ytdlp st) = true /\ is_killed (ffmpeg st) = true
      /\ relaying st = false)
  /\ (forall s1,
         step s0 RelayDone = Some s1 ->
         (exists f, ffmpeg s1 = Some f /\ stdin_ended f = true)
         /\ is_killed (ytdlp s1) = is_killed (ytdlp s0)
         /\ is_killed (ffmpeg s1) = is_killed (ffmpeg s0)
         /\ forall post st, run s1 post = Some st -> relaying st = false).
Proof.
  intros Hpre.
  pose proof (run_piped pre _ _ (streamVideo_piped req probe) Hpre) as P.
  split.
  - intros s1 post st Hstep Hpost. simpl in Hstep.
    destruct (relaying s0) eqn:R; [|discriminate].
    destruct (P R) as (Hy & Hf & r & Hp). injection Hstep as <-.
    assert (both_killed
              {| phase := phase s0; titleProc := titleProc s0;
                 titleTimeout := titleTimeout s0;
                 ytdlp := option_map kill (ytdlp s0);
                 ffmpeg := option_map kill (ffmpeg s0);
                 relaying := false; abortListener := abortListener s0;
                 aborted := aborted s0 |}) as K.
    { repeat split; simpl; auto using is_killed_kill. eauto. }
    destruct (run_both_killed post _ _ K Hpost) as (Ky & Kf & _).
    repeat split; try assumption.
    eapply run_relay_over; [| |exact Hpost]; simpl; eauto.
  - intros s1 Hstep. simpl in Hstep.
    destruct (relaying s0) eqn:R; [|discriminate].
    destruct (P R) as (Hy & Hf & r & Hp). injection Hstep as <-.
    simpl. repeat split.
    + destruct (ffmpeg s0) as [f|]; [|congruence]. now exists (end_stdin f).
    + apply is_killed_end_stdin.
    + intros post st Hpost.
      eapply run_relay_over; [| |exact Hpost]; simpl; eauto.
Qed.

(** ** The router and the title timer *)

Section Routes.

Lemma eqb_neq a b : eqb a b = false <-> a <> b.
Proof.
  split.
  - intros E H. apply eqb_eq in H. congruence.
  - intros H. destruct (eqb a b) eqn:E; [|reflexivity].
    apply eqb_eq in E. contradiction.
Qed.

Lemma resume_no_allow_origin st u q v raw yt ff r :
  phase (resume st u q v raw yt ff) = Settled r ->
  ~ In allow_origin (map fst (headers r)).
Proof.
  unfold resume.
  destruct yt; [destruct ff; [destruct (encodeURIComponent _)|]|];
    simpl; intros E; injection E as <-; simpl; intros H;
    repeat (destruct H as [H|H]; [discriminate H|]); exact H.
Qed.

Lemma streamVideo_no_allow_origin req probe r :
  phase (streamVideo req probe) = Settled r ->
  ~ In allow_origin (map fst (headers r)).
Proof.
  unfold streamVideo.
  destruct (searchParams_get (searchParams req) (str "url")) as [[|c u]|];
    [| destruct (valid (isValidUrl (c :: u))); [destruct probe|] |];
    simpl; intros E; try discriminate; injection E as <-; simpl; intros H;
    repeat (destruct H as [H|H]; [discriminate H|]); exact H.
Qed.

Lemma step_timer_off st ev st' :
  titleTimeout st = false -> step st ev = Some st' ->
  titleTimeout st' = false.
Proof.
  intros T H. step_inv H st ev; try congruence; simpl; auto.
  now destruct (resume_children st url quality validation raw yt ff)
    as (_ & _ & _ & _ & ->).
Qed.

Lemma run_timer_off evs : forall st st',
  titleTimeout st = false -> run st evs = Some st' ->
  titleTimeout st' = false.
Proof.
  induction evs as [|ev evs IH]; simpl; intros st st' T E.
  - now injection E as <-.
  - destruct (step st ev) as [st1|] eqn:S; [|discriminate].
    eauto using step_timer_off.
Qed.

(** A pending timer tells that neither it nor the title has come yet. *)
Lemma run_timer_pending evs : forall st st',
  run st evs = Some st' -> titleTimeout st' = true ->
  ~ In TitleTimeout evs
  /\ forall raw yt ff, ~ In (TitleSettled raw yt ff) evs.
Proof.
  induction evs as [|ev evs IH]; simpl; intros st st' E T.
  - split; [tauto | intros ? ? ?; tauto].
  - destruct (step st ev) as [st1|] eqn:S; [|discriminate].
    destruct (IH st1 st' E T) as [N1 N2].
    assert (titleTimeout st1 = true) as T1.
    { destruct (titleTimeout st1) eqn:T1; [reflexivity|].
      rewrite (run_timer_off evs st1 st' T1 E) in T. discriminate. }
    split.
    + intros [->|I]; [|contradiction].
      simpl in S. destruct (titleTimeout st); [|discriminate].
      injection S as <-. discriminate.
    + intros raw yt ff [->|I]; [|exact (N2 raw yt ff I)].
      cbn [step] in S. destruct (phase st); [|discriminate].
      assert (st1 = resume st url quality validation raw yt ff) as ->
        by congruence.
      destruct (resume_children st url quality validation raw yt ff)
        as (_ & _ & _ & _ & T'). congruence.
Qed.

Lemma step_probe_killed st ev st' :
  is_killed (titleProc st) = true -> step st ev = Some st' ->
  is_killed (titleProc st') = true.
Proof.
  intros K H. step_inv H st ev; simpl; auto using is_killed_kill_mono.
  now destruct (resume_children st url quality validation raw yt ff)
    as (_ & _ & -> & _).
Qed.

Lemma run_probe_killed evs : forall st st',
  is_killed (titleProc st) = true -> run st evs = Some st' ->
  is_killed (titleProc st') = true.
Proof.
  induction evs as [|ev evs IH]; simpl; intros st st' K E.
  - now injection E as <-.
  - destruct (step st ev) as [st1|] eqn:S; [|discriminate].
    eauto using step_probe_killed.
Qed.

Lemma streamVideo_timer_has_probe req probe :
  titleTimeout (streamVideo req probe) = true ->
  titleProc (streamVideo req probe) <> None.
Proof.
  unfold streamVideo.
  destruct (searchParams_get (searchParams req) (str "url")) as [[|c u]|];
    [| destruct (valid (isValidUrl (c :: u))); [destruct probe|] |];
    simpl; discriminate.
Qed.

Lemma run_timer_has_probe evs : forall st st',
  (titleTimeout st = true -> titleProc st <> None) ->
  run st evs = Some st' ->
  titleTimeout st' = true -> titleProc st' <> None.
Proof.
  induction evs as [|ev evs IH]; simpl; intros st st' I0 E T.
  - injection E as <-. auto.
  - destruct (step st ev) as [st1|] eqn:S; [|discriminate].
    apply (IH st1 st'); [|assumption|assumption]. intros T1.
    destruct (titleTimeout st) eqn:Ts.
    + specialize (I0 eq_refl).
      step_inv S st ev; simpl in *; try congruence.
      destruct (resume_children st url quality validation raw yt ff)
        as (_ & _ & _ & _ & T''). congruence.
    + rewrite (step_timer_off st ev st1 Ts S) in T1. discriminate.
Qed.

End Routes.

(** X15: the paths other than the two download paths start nothing.  Their
    request is answered at once, 200 for the page, the platform list and
    the health check and 404 for any other path, and no process, timer,
    relay or abort handler exists for it, then or later. *)
Theorem other_routes_start_nothing
    (req : Request) (now : N) (probe : SpawnOutcome) :
  pathname req <> str "/api/download" ->
  pathname req <> str "/twitter/stream" ->
  exists r,
    fetch req now probe = respond r
    /\ (status r = 404
        <-> ~ In (pathname req) [str "/"; str "/api/platforms"; str "/health"])
    /\ (status r = 200 \/ status r = 404)
    /\ forall evs st, run (fetch req now probe) evs = Some st -> idle r st.
Proof.
  intros N1 N2. apply eqb_neq in N1, N2.
  assert (forall r, fetch req now probe = respond r ->
            forall evs st, run (fetch req now probe) evs = Some st ->
                           idle r st) as Hidle.
  { intros r -> evs st. apply run_idle, respond_idle. }
  unfold fetch in *. rewrite N1, N2 in *.
  destruct (eqb (pathname req) (str "/")) eqn:E1;
    [|destruct (eqb (pathname req) (str "/api/platforms")) eqn:E2;
      [|destruct (eqb (pathname req) (str "/health")) eqn:E3]];
    eexists; (split; [reflexivity|]);
    (split; [|split; [simpl; auto | now apply Hidle]]); cbn [status].
  - apply eqb_eq in E1. split; [discriminate|].
    intros H. exfalso. apply H. rewrite E1. simpl. auto.
  - apply eqb_eq in E2. split; [discriminate|].
    intros H. exfalso. apply H. rewrite E2. simpl. auto.
  - apply eqb_eq in E3. split; [discriminate|].
    intros H. exfalso. apply H. rewrite E3. simpl. auto.
  - apply eqb_neq in E1, E2, E3. split; [|reflexivity].
    intros _ [H|[H|[H|[]]]]; congruence.
Qed.

(** X16: the platform list is served in the order of the configuration,
    one object per platform with its name and its icon, so that its names
    are the [supported] array of a rejected url; and it is served to every
    origin. *)
Theorem platforms_endpoint_lists_configuration
    (req : Request) (now : N) (probe : SpawnOutcome) :
  pathname req = str "/api/platforms" ->
  exists r items,
    fetch req now probe = respond r /\ status r = 200
    /\ body r = JsonText (JArray items)
    /\ map (field (str "name")) items
       = map (fun p => Some (JString (name p))) SUPPORTED_PLATFORMS
    /\ map (field (str "icon")) items
       = map (fun p => Some (JString (icon p))) SUPPORTED_PLATFORMS
    /\ In (allow_origin, str "*") (headers r).
Proof.
  intros E. unfold fetch. rewrite E. cbn [eqb str N.eqb andb].
  do 2 eexists. split; [reflexivity|]. cbn [status body headers].
  split; [reflexivity|]. split; [reflexivity|].
  unfold getSupportedPlatforms. rewrite !map_map.
  split; [|split]; [apply map_ext | apply map_ext | right; left];
    reflexivity.
Qed.

(** X17: only the platform list is opened to other origins: on every other
    path, the download paths and their error answers included, no answer
    carries an Access-Control-Allow-Origin header. *)
Theorem only_platforms_allows_other_origins
    (req : Request) (now : N) (probe : SpawnOutcome) (evs : list Event)
    (st : Lifecycle) (r : Response) :
  pathname req <> str "/api/platforms" ->
  run (fetch req now probe) evs = Some st ->
  phase st = Settled r ->
  ~ In allow_origin (map fst (headers r)).
Proof.
  intros N1 Hrun Hp.
  apply (run_answer (fun r => ~ In allow_origin (map fst (headers r))) evs
           (fetch req now probe) st); try assumption.
  - intros st0 u q v raw yt ff r0. apply resume_no_allow_origin.
  - apply eqb_neq in N1. intros r0. unfold fetch. rewrite N1.
    repeat match goal with
           | |- context [if ?b then _ else _] => destruct b
           end;
      try apply streamVideo_no_allow_origin;
      simpl; intros E; injection E as <-; simpl; intros H;
      repeat (destruct H as [H|H]; [discriminate H|]); exact H.
Qed.

(** X18: the title timer fires at most once, only before the title has
    settled, and what it kills is the probe. *)
Theorem title_timer_fires_once
    (req : Request) (probe : SpawnOutcome) (pre post : list Event)
    (st : Lifecycle) :
  run (streamVideo req probe) (pre ++ TitleTimeout :: post) = Some st ->
  ~ In TitleTimeout pre
  /\ (forall raw yt ff, ~ In (TitleSettled raw yt ff) pre)
  /\ ~ In TitleTimeout post
  /\ is_killed (titleProc st) = true.
Proof.
  rewrite run_app.
  destruct (run (streamVideo req probe) pre) as [s0|] eqn:Hpre;
    [|discriminate].
  cbn [run]. destruct (step s0 TitleTimeout) as [s1|] eqn:S; [|discriminate].
  intros Hpost. simpl in S.
  destruct (titleTimeout s0) eqn:T; [|discriminate]. injection S as <-.
  destruct (run_timer_pending pre _ _ Hpre T) as [N1 N2].
  repeat split; try assumption.
  - intros I. apply in_split in I as (a & b & ->).
    rewrite run_app in Hpost.
    destruct (run _ a) as [s2|] eqn:Ha; [|discriminate].
    assert (titleTimeout s2 = false) as T2
      by (eapply run_timer_off; [|exact Ha]; reflexivity).
    simpl in Hpost. rewrite T2 in Hpost. discriminate.
  - eapply run_probe_killed; [|exact Hpost]. simpl.
    apply is_killed_kill.
    apply (run_timer_has_probe pre _ _ (streamVideo_timer_has_probe req probe)
             Hpre T).
Qed.

(** ** Answers and children *)

Section Served.

Lemma error500_served e r :
  Settled (error500 e) = Settled r ->
  status r <> 200
  /\ exists v, body r = JsonText v /\ field (str "error") v <> None
       /\ headers r = json_headers.
Proof.
  intros E. injection E as <-. split; [discriminate|].
  eexists. repeat split. discriminate.
Qed.

Lemma streamVideo_served req probe : served (streamVideo req probe).
Proof.
  unfold served, streamVideo.
  destruct (searchParams_get (searchParams req) (str "url")) as [[|c u]|];
    [| destruct (valid (isValidUrl (c :: u))); [destruct probe|] |];
    simpl; intros r E; try discriminate;
    try (destruct (error500_served _ _ E) as [N H]; split;
         [intros; contradiction | intros _; exact H]);
    injection E as <-; (split; [discriminate|]); intros _;
    eexists; repeat split; discriminate.
Qed.

Lemma resume_served st u q v raw yt ff : served (resume st u q v raw yt ff).
Proof.
  unfold served, resume. cbv zeta.
  destruct yt; [destruct ff; [destruct (encodeURIComponent _)|]|];
    cbn [phase]; intros r E;
    try (destruct (error500_served _ _ E) as [N H]; split;
         [intros; contradiction | intros _; exact H]).
  injection E as <-. split; [|intros N; now contradiction N].
  intros _. do 2 eexists. repeat split.
Qed.

Lemma step_served st ev st' : served st -> step st ev = Some st' -> served st'.
Proof.
  intros Sv H.
  step_inv H st ev; try apply resume_served;
    intros r E; simpl in E; destruct (Sv r E) as [H2 Hn];
    (split; [|exact Hn]); intros S2;
    destruct (H2 S2) as (y & f & Hy & Hf & Hb & Hl); simpl;
    rewrite ?Hy, ?Hf, ?Hl; simpl; eauto 10.
Qed.

Lemma run_served evs : forall st st',
  served st -> run st evs = Some st' -> served st'.
Proof.
  induction evs as [|ev evs IH]; simpl; intros st st' Sv E.
  - now injection E as <-.
  - destruct (step st ev) as [st1|] eqn:S; [|discriminate].
    eauto using step_served.
Qed.

(** An answer given during a run comes from the event that settled the
    title. *)
Lemma run_answer_origin evs : forall st st' r,
  run st evs = Some st' -> phase st' = Settled r ->
  phase st = Settled r
  \/ exists s0 u q v raw yt ff,
       In (TitleSettled raw yt ff) evs
       /\ phase (resume s0 u q v raw yt ff) = Settled r.
Proof.
  induction evs as [|ev evs IH]; simpl; intros st st' r E P.
  - injection E as <-. now left.
  - destruct (step st ev) as [st1|] eqn:S; [|discriminate].
    destruct (IH st1 st' r E P)
      as [P1 | (s0 & u & q & v & raw & yt & ff & I & Hr)].
    + destruct ev;
        try (left; step_inv S st Abort; exact P1);
        try (left; cbn [step] in S;
             repeat match type of S with
                    | (if ?b then _ else _) = _ => destruct b
                    end; try discriminate S; injection S as <-; exact P1).
      right. cbn [step] in S. destruct (phase st); [|discriminate].
      assert (st1 = resume st url quality validation raw yt ff) as ->
        by congruence.
      exists st, url, quality, validation, raw, yt, ff. auto.
    + right. exists s0, u, q, v, raw, yt, ff. auto.
Qed.

End Served.

(** X19: what an answer of a download request tells.  A 200 answer is the
    standard output of the transcoder of the request, which was started
    with a downloader and with the abort handler in place; every other
    answer is a JSON object with an [error] key and the JSON content
    type. *)
Theorem answer_reflects_children
    (req : Request) (probe : SpawnOutcome) (evs : list Event)
    (st : Lifecycle) (r : Response) :
  run (streamVideo req probe) evs = Some st ->
  phase st = Settled r ->
  (status r = 200 ->
   exists y f, ytdlp st = Some y /\ ffmpeg st = Some f
     /\ body r = StdoutOf (cmd f) /\ abortListener st = true)
  /\ (status r <> 200 ->
      exists v, body r = JsonText v /\ field (str "error") v <> None
        /\ headers r = json_headers).
Proof.
  intros Hrun Hp.
  exact (run_served evs _ _ (streamVideo_served req probe) Hrun r Hp).
Qed.

(** X20: a 500 answer means that a spawn threw: the spawn of the title
    probe, or that of the downloader or of the transcoder when the title
    settled.  Nothing else in the pipeline fails a request. *)
Theorem server_error_means_spawn_threw
    (req : Request) (probe : SpawnOutcome) (evs : list Event)
    (st : Lifecycle) (r : Response) :
  run (streamVideo req probe) evs = Some st ->
  phase st = Settled r -> status r = 500 ->
  probe <> Started
  \/ exists raw yt ff,
       In (TitleSettled raw yt ff) evs /\ (yt <> Started \/ ff <> Started).
Proof.
  intros Hrun Hp Hs.
  destruct (run_answer_origin evs _ _ r Hrun Hp)
    as [P0 | (s0 & u & q & v & raw & yt & ff & I & Hr)].
  - left. intros ->. revert P0. unfold streamVideo.
    destruct (searchParams_get (searchParams req) (str "url")) as [[|c u]|];
      [| destruct (valid (isValidUrl (c :: u))) |];
      simpl; intros E; try discriminate; injection E as <-; discriminate.
  - right. exists raw, yt, ff. split; [assumption|].
    destruct yt; [|right + left; discriminate].
    destruct ff; [|right; discriminate].
    destruct (resume_started_answers_200 s0 u q v raw) as (r' & Hr' & S' & _).
    congruence.
Qed.

(** ** The further properties at concrete inputs *)

Lemma platform_patterns_disjoint_witness :
  test (pattern vimeo_config) clip_url = true
  /\ vimeo_config = vimeo_config.
Proof.
  split; [vm_compute; reflexivity|].
  apply (platform_patterns_disjoint clip_url vimeo_config vimeo_config).
  - do 6 right. left. reflexivity.
  - do 6 right. left. reflexivity.
  - vm_compute; reflexivity.
  - vm_compute; reflexivity.
Defined.

Lemma isValidUrl_returns_matching_platform_witness :
  isValidUrl clip_url
  = {| valid := true; platform := Some (str "Vimeo");
       v_icon := Some [55356; 57260] |}.
Proof.
  apply (isValidUrl_returns_matching_platform clip_url vimeo_config).
  - do 6 right. left. reflexivity.
  - vm_compute; reflexivity.
Defined.

Lemma isValidUrl_ignores_suffix_witness :
  isValidUrl (clip_url ++ str " and anything after") = isValidUrl clip_url.
Proof.
  apply (isValidUrl_ignores_suffix clip_url (str " and anything after")).
  vm_compute; reflexivity.
Defined.

Lemma youtube_family_iff_youtube_pattern_witness :
  getYtDlpFormat (str "720")
    (platform (isValidUrl (str "https://youtu.be/dQw4w9WgXcQ")))
  = str "bestvideo[height<=720][ext=mp4]+bestaudio[ext=m4a]/best[height<=720]"
  /\ getYtDlpFormat (str "720") (platform (isValidUrl clip_url))
     = str "bv*[height<=720]+ba/b[height<=720]/b".
Proof.
  split.
  - rewrite (youtube_family_iff_youtube_pattern
               (str "https://youtu.be/dQw4w9WgXcQ") (str "720")
               youtube_config).
    + vm_compute; reflexivity.
    + do 2 right. left. reflexivity.
    + reflexivity.
  - rewrite (youtube_family_iff_youtube_pattern clip_url (str "720")
               youtube_config).
    + vm_compute; reflexivity.
    + do 2 right. left. reflexivity.
    + reflexivity.
Defined.

Lemma unlisted_quality_served_as_best_witness :
  option_map forget_quality
    (run (streamVideo odd_quality_request Started)
       [TitleSettled (Some (str "clip")) Started Started; RelayDone])
  = option_map forget_quality
      (run (streamVideo
              {| pathname := str "/api/download";
                 searchParams :=
                   [(str "url", clip_url); (str "quality", str "best")] |}
              Started)
         [TitleSettled (Some (str "clip")) Started Started; RelayDone]).
Proof.
  apply (unlisted_quality_served_as_best odd_quality_request Started clip_url).
  - reflexivity.
  - vm_compute. intros H.
    repeat (destruct H as [H|H]; [discriminate H|]). exact H.
Defined.

Lemma title_probe_is_best_effort_witness :
  exists st' r,
    step (streamVideo clip_request Started)
      (TitleSettled None Started Started) = Some st'
    /\ phase st' = Settled r /\ status r = 200
    /\ body r = StdoutOf (ffmpegCmd false).
Proof.
  apply (proj1 (title_probe_is_best_effort (streamVideo clip_request Started)
                  clip_url (str "best") (isValidUrl clip_url) None
                  eq_refl)).
Defined.

Lemma answer_headers_are_safe_witness :
  exists st r,
    run (streamVideo clip_request Started)
      [TitleSettled (Some [97; 13; 10; 98; 233]) Started Started] = Some st
    /\ phase st = Settled r
    /\ In (status r) [200; 400; 500]
    /\ headers_ok r.
Proof.
  do 2 eexists. split; [vm_compute; reflexivity|]. split; [reflexivity|].
  eapply (answer_headers_are_safe clip_request Started
            [TitleSettled (Some [97; 13; 10; 98; 233]) Started Started]);
    vm_compute; reflexivity.
Defined.

Lemma children_command_lines_witness :
  exists st y,
    run (streamVideo odd_quality_request Started)
      [TitleSettled None Started Started; Abort] = Some st
    /\ ytdlp st = Some y
    /\ cmd y = [str "yt-dlp"; str "-f"; str "bv*+ba/b"; str "-o"; str "-";
                clip_url].
Proof.
  do 2 eexists. split; [vm_compute; reflexivity|]. split; [reflexivity|].
  edestruct children_command_lines
    with (req := odd_quality_request) (probe := Started)
         (evs := [TitleSettled None Started Started; Abort])
    as (_ & Hy & _).
  - vm_compute; reflexivity.
  - edestruct Hy as (u & Hu & _ & _ & Hcmd); [reflexivity|].
    vm_compute in Hu. injection Hu as <-. exact Hcmd.
Defined.

Lemma children_are_killed_only_by_witness :
  exists st,
    run (streamVideo clip_request Started)
      [TitleTimeout; TitleSettled (Some []) Started Started; RelayChunk;
       RelayDone] = Some st
    /\ is_killed (ytdlp st) = false /\ is_killed (ffmpeg st) = false.
Proof.
  eexists. split; [vm_compute; reflexivity|].
  edestruct children_are_killed_only_by
    with (req := clip_request) (probe := Started)
         (evs := [TitleTimeout; TitleSettled (Some []) Started Started;
                  RelayChunk; RelayDone])
    as (Hk & _).
  - vm_compute; reflexivity.
  - apply Hk; simpl; intros H;
      repeat (destruct H as [H|H]; [discriminate H|]); exact H.
Defined.

Lemma early_abort_is_lost_witness :
  exists st,
    run (streamVideo clip_request Started)
      [Abort; TitleSettled (Some (str "clip")) Started Started; RelayChunk;
       RelayDone] = Some st
    /\ running_unkilled (ytdlp st) = true
    /\ running_unkilled (ffmpeg st) = true.
Proof.
  eexists. split; [vm_compute; reflexivity|].
  edestruct early_abort_is_lost
    with (s := streamVideo clip_request Started) (pre := [Abort])
         (post := [RelayChunk; RelayDone]) (raw := Some (str "clip"))
    as (Ky & Kf & _).
  - vm_compute; reflexivity.
  - left. reflexivity.
  - vm_compute; reflexivity.
  - vm_compute; reflexivity.
  - simpl. intros H. repeat (destruct H as [H|H]; [discriminate H|]). exact H.
  - split; [exact Ky | exact Kf].
Defined.

Lemma transcoder_failure_orphans_downloader_witness :
  exists st,
    run (streamVideo clip_request Started)
      [TitleSettled (Some (str "clip")) Started
         (Throws (ErrorObject (str "ENOENT")));
       Abort] = Some st
    /\ phase st = Settled (error500 (ErrorObject (str "ENOENT")))
    /\ running_unkilled (ytdlp st) = true.
Proof.
  eexists. split; [vm_compute; reflexivity|].
  edestruct transcoder_failure_orphans_downloader
    with (s0 := streamVideo clip_request Started) (raw := Some (str "clip"))
         (e := ErrorObject (str "ENOENT")) (post := [Abort])
    as (Hp & Ky & _).
  - vm_compute; reflexivity.
  - vm_compute; reflexivity.
  - split; [exact Hp | exact Ky].
Defined.

Lemma relay_end_witness :
  exists st,
    run (streamVideo clip_request Started)
      [TitleSettled (Some (str "clip")) Started Started; RelayChunk;
       RelayFailed; Abort] = Some st
    /\ is_killed (ytdlp st) = true /\ is_killed (ffmpeg st) = true.
Proof.
  eexists. split; [vm_compute; reflexivity|].
  edestruct relay_end
    with (req := clip_request) (probe := Started)
         (pre := [TitleSettled (Some (str "clip")) Started Started;
                  RelayChunk])
    as (Hfail & _).
  - vm_compute; reflexivity.
  - edestruct Hfail with (post := [Abort]) as (Ky & Kf & _).
    + vm_compute; reflexivity.
    + vm_compute; reflexivity.
    + split; [exact Ky | exact Kf].
Defined.

Lemma other_routes_start_nothing_witness :
  exists r,
    fetch {| pathname := str "/health/"; searchParams := [] |} 0 Started
    = respond r
    /\ status r = 404.
Proof.
  edestruct (other_routes_start_nothing
               {| pathname := str "/health/"; searchParams := [] |} 0 Started)
    as (r & Hf & H404 & _).
  - discriminate.
  - discriminate.
  - exists r. split; [exact Hf|]. apply H404. simpl. intros H.
    repeat (destruct H as [H|H]; [discriminate H|]). exact H.
Defined.

Lemma platforms_endpoint_lists_configuration_witness :
  exists r items,
    fetch {| pathname := str "/api/platforms"; searchParams := [] |} 0 Started
    = respond r
    /\ body r = JsonText (JArray items)
    /\ List.length items = 10%nat.
Proof.
  edestruct (platforms_endpoint_lists_configuration
               {| pathname := str "/api/platforms"; searchParams := [] |}
               0 Started eq_refl)
    as (r & items & Hf & _ & Hb & Hn & _).
  exists r, items. split; [exact Hf|]. split; [exact Hb|].
  rewrite <- (length_map (field (str "name")) items), Hn. reflexivity.
Defined.

Lemma only_platforms_allows_other_origins_witness :
  exists st r,
    run (fetch {| pathname := str "/api/download"; searchParams := [] |}
           0 Started) [Abort] = Some st
    /\ phase st = Settled r
    /\ ~ In allow_origin (map fst (headers r)).
Proof.
  do 2 eexists. split; [reflexivity|]. split; [reflexivity|].
  eapply (only_platforms_allows_other_origins
            {| pathname := str "/api/download"; searchParams := [] |}
            0 Started [Abort]).
  - discriminate.
  - reflexivity.
  - reflexivity.
Defined.

Lemma title_timer_fires_once_witness :
  exists st,
    run (streamVideo clip_request Started)
      ([Abort] ++ TitleTimeout :: [TitleSettled (Some []) Started Started])
    = Some st
    /\ is_killed (titleProc st) = true.
Proof.
  eexists. split; [vm_compute; reflexivity|].
  apply (title_timer_fires_once clip_request Started [Abort]
           [TitleSettled (Some []) Started Started]).
  vm_compute; reflexivity.
Defined.

Lemma answer_reflects_children_witness :
  exists st r f,
    run (streamVideo clip_request Started)
      [TitleSettled (Some (str "clip")) Started Started; RelayDone] = Some st
    /\ phase st = Settled r
    /\ ffmpeg st = Some f /\ body r = StdoutOf (cmd f).
Proof.
  do 3 eexists. split; [vm_compute; reflexivity|]. split; [reflexivity|].
  edestruct answer_reflects_children
    with (req := clip_request) (probe := Started)
         (evs := [TitleSettled (Some (str "clip")) Started Started;
                  RelayDone])
    as (H200 & _).
  - vm_compute; reflexivity.
  - reflexivity.
  - edestruct H200 as (y & f & _ & Hf & Hb & _); [reflexivity|].
    split; [reflexivity|]. vm_compute in Hf. injection Hf as <-. exact Hb.
Defined.

Lemma server_error_means_spawn_threw_witness :
  Throws OtherValue <> Started
  \/ exists raw yt ff,
       In (TitleSettled raw yt ff) [Abort]
       /\ (yt <> Started \/ ff <> Started).
Proof.
  eapply (server_error_means_spawn_threw clip_request (Throws OtherValue)
            [Abort]); reflexivity.
Defined.
